(** * openstack_releases.cmds.validate

    A shallow embedding of [openstack_releases/cmds/validate.py]: the
    hash format test [is_a_hash] and the validation run [main], with
    the properties the design document states about them.

    Python strings are modelled as [string], 8-bit characters; under
    [re.I] no character beyond ASCII folds into [[a-f0-9]], so nothing
    is lost for [is_a_hash]. The libraries the module calls
    ([requests], [yaml], [gitutils], [versionutils], [tempfile],
    [shutil], [os.path]) are an environment of oracles, fixed for the
    run; [requests.get] may raise, [shutil.rmtree] may fail, the other
    calls answer. What [main] prints is left out. *)

From Stdlib Require Import ZArith Ascii String.
From stdpp Require Import gmap strings list.

(** ** The fragment of [re] used by [is_a_hash] *)

Module Re.

(** The items of a compiled pattern that ['^[a-f0-9]{40}$'] needs:
    the two anchors and a character class repeated a fixed number of
    times. *)
Inductive item : Type :=
| AT_BEGINNING                                       (* ^ *)
| AT_END                                             (* $ *)
| REPEAT_IN (ranges : list (ascii * ascii)) (count : nat).  (* [..]{n} *)

Definition pattern := list item.

(** [re.I] for an 8-bit pattern: only the ASCII letters fold. *)
Definition lower (c : ascii) : ascii :=
  let n := nat_of_ascii c in
  if ((65 <=? n) && (n <=? 90))%nat then ascii_of_nat (n + 32) else c.

Definition in_range (c : ascii) (r : ascii * ascii) : bool :=
  ((nat_of_ascii (fst r) <=? nat_of_ascii c) &&
   (nat_of_ascii c <=? nat_of_ascii (snd r)))%nat.

(** With IGNORECASE the subject character is lowered before it is
    looked up in the set. *)
Definition in_class (ignorecase : bool) (ranges : list (ascii * ascii))
    (c : ascii) : bool :=
  existsb (in_range (if ignorecase then lower c else c)) ranges.

(** Consume exactly [count] characters of the class; the rest of the
    subject on success. *)
Fixpoint repeat_in (ignorecase : bool) (ranges : list (ascii * ascii))
    (count : nat) (s : string) : option string :=
  match count with
  | O => Some s
  | S count' =>
      match s with
      | String c s' =>
          if in_class ignorecase ranges c
          then repeat_in ignorecase ranges count' s'
          else None
      | EmptyString => None
      end
  end.

(** [$] without MULTILINE: at the end of the subject, or just before
    a newline that is its last character. *)
Definition at_end (s : string) : bool :=
  match s with
  | EmptyString => true
  | String c EmptyString => Ascii.eqb c "010"
  | _ => false
  end.

(** Does the pattern match at this position?  [at_start] tells whether
    the position is the beginning of the subject. *)
Fixpoint match_here (ignorecase : bool) (p : pattern) (at_start : bool)
    (s : string) : bool :=
  match p with
  | [] => true
  | AT_BEGINNING :: p' => at_start && match_here ignorecase p' at_start s
  | AT_END :: p' => at_end s && match_here ignorecase p' at_start s
  | REPEAT_IN ranges count :: p' =>
      match repeat_in ignorecase ranges count s with
      | Some rest =>
          match_here ignorecase p'
            (at_start && Nat.eqb (String.length rest) (String.length s)) rest
      | None => false
      end
  end.

Fixpoint search_from (ignorecase : bool) (p : pattern) (at_start : bool)
    (s : string) : bool :=
  match_here ignorecase p at_start s ||
  match s with
  | String _ s' => search_from ignorecase p false s'
  | EmptyString => false
  end.

(** [re.search(p, s, flags) is not None]: some position of [s], tried
    from left to right, has a match. *)
Definition search (p : pattern) (s : string) (ignorecase : bool) : bool :=
  search_from ignorecase p true s.

End Re.

(** [[a-f0-9]] *)
Definition hash_ranges : list (ascii * ascii) :=
  [("a"%char, "f"%char); ("0"%char, "9"%char)].

(** ['^[a-f0-9]{40}$'] *)
Definition hash_pattern : Re.pattern :=
  [Re.AT_BEGINNING; Re.REPEAT_IN hash_ranges 40; Re.AT_END].

(** [is_a_hash(val)]: "Return bool indicating if val looks like a valid
    hash." *)
Definition is_a_hash (val : string) : bool :=
  Re.search hash_pattern val true.

(** ** The design document's notion of a well-formed hash *)

(** A hexadecimal character, of either case. *)
Definition is_hex_char (c : ascii) : bool :=
  bool_decide (c ∈ list_ascii_of_string "0123456789abcdefABCDEF").

Fixpoint all_chars (f : ascii -> bool) (s : string) : bool :=
  match s with
  | EmptyString => true
  | String c s' => f c && all_chars f s'
  end.

(** Exactly 40 hexadecimal characters, matched case-insensitively. *)
Definition hex40 (h : string) : bool :=
  Nat.eqb (String.length h) 40 && all_chars is_hex_char h.

Definition newline : string := String "010" EmptyString.


(** ** Deliverable documents

    What [yaml.load] returns for a deliverable file.  The two keys
    [main] reads under [try ... except KeyError] are optional; the
    release list and the keys of its entries are read unguarded and are
    part of the document's type. *)

Record ProjectRef : Type := {
  repo : string;
  hash : string;
}.

Record Release : Type := {
  version : string;
  projects : list ProjectRef;
}.

Record Deliverable : Type := {
  launchpad : option string;
  send_announcements_to : option string;
  releases : list Release;
}.

(** ** Diagnostics

    [errors] is a list of strings built at nine [errors.append] sites.
    One constructor per site keeps the format arguments apart; [render]
    gives the string the site appends, so the list of the program is
    [render <$> errors]. *)

Inductive diagnostic : Type :=
| NoLaunchpad (filename : string)
| LaunchpadMissing (lp_name : string)
| NoAnnouncements (filename : string)
| SpaceInAnnouncements (announce_to filename : string)
| VersionError (e : string)
| NotAHash (repo version hash : string)
| NoCommit (hash repo : string)
| WrongCommit (version repo actual_sha hash : string)
| NotADescendant (repo hash prev_version : string).

Definition render (repr : string -> string) (d : diagnostic) : string :=
  match d with
  | NoLaunchpad filename =>
      "No launchpad project given in " +:+ filename
  | LaunchpadMissing lp_name =>
      "Launchpad project " +:+ lp_name +:+ " does not exist"
  | NoAnnouncements filename =>
      "No send-announcements-to in " +:+ filename
  | SpaceInAnnouncements announce_to filename =>
      "Space in send-announcements-to (" +:+ repr announce_to +:+ ") for "
        +:+ filename
  | VersionError e => e
  | NotAHash repo version hash =>
      repo +:+ " version " +:+ version +:+ " release from " +:+ repr hash
        +:+ ", which is not a hash"
  | NoCommit hash repo =>
      "No commit " +:+ repr hash +:+ " in " +:+ repr repo
  | WrongCommit version repo actual_sha hash =>
      "Version " +:+ version +:+ " in " +:+ repo +:+ " is on commit "
        +:+ actual_sha +:+ " instead of " +:+ hash
  | NotADescendant repo hash prev_version =>
      repo +:+ " " +:+ hash +:+ " is not a descendant of " +:+ prev_version
  end.

(** ** The world outside the module *)

(** [requests.get] answers with a status code, or raises (connection
    refused, timeout). *)
Inductive http_result : Type :=
| Response (status_code : Z)
| ConnectionError.

Inductive exn : Type :=
| RequestException (url : string).

(** The calls that are recorded: the working directory, the bug
    tracker and the repository functions of [gitutils]. Choosing the
    files ([gitutils.find_modified_deliverable_files], [glob.glob]),
    [os.path.isfile] and the reading of a file are answered by the
    environment and leave no event. *)
Inductive event : Type :=
| Mkdtemp (workdir : string)
| Rmtree (workdir : string)
| Get (url : string)
| CommitExists (repo ref : string)
| CloneRepo (workdir repo : string)
| ShaForTag (workdir repo version : string)
| CheckAncestry (workdir repo old_version sha : string).

(** A repository lookup is any call answered by the version-control
    side. *)
Definition is_lookup (ev : event) : bool :=
  match ev with
  | CommitExists _ _ | CloneRepo _ _ | ShaForTag _ _ _
  | CheckAncestry _ _ _ _ => true
  | _ => false
  end.

(** What the collaborators answer during one run. *)
Record Env : Type := {
  gitutils_find_modified_deliverable_files : list string;
  glob_glob_release : list string;
  tempfile_mkdtemp : string;
  shutil_rmtree : string -> bool;            (* false: it raises *)
  os_path_isfile : string -> bool;
  yaml_load : string -> Deliverable;
  requests_get : string -> http_result;
  versionutils_validate_version : string -> list string;
  gitutils_commit_exists : string -> string -> bool;
  gitutils_sha_for_tag : string -> string -> string -> string;
  gitutils_check_ancestry : string -> string -> string -> string -> bool;
}.

(** [argparse]'s namespace: [--no-cleanup] clears [cleanup]. *)
Record Args : Type := {
  cleanup : bool;
  input : list string;
}.

(** Functions handed to [atexit.register]. *)
Inductive exitfunc : Type :=
| cleanup_workdir (args_cleanup : bool) (workdir : string).

(** ** Run state

    The variables of [main] that change during the run, the exit
    functions registered so far, the temporary directories present on
    disk, and the calls made. *)

Record state : Type := {
  errors : list diagnostic;
  prev_version : option string;
  prev_projects : gset string;
  exitfuncs : list exitfunc;
  tmpdirs : gset string;
  trace : list event;
}.

Definition initial_state : state :=
  {| errors := []; prev_version := None; prev_projects := ∅;
     exitfuncs := []; tmpdirs := ∅; trace := [] |}.

Definition set_errors (es : list diagnostic) (s : state) : state :=
  {| errors := es; prev_version := prev_version s;
     prev_projects := prev_projects s; exitfuncs := exitfuncs s;
     tmpdirs := tmpdirs s; trace := trace s |}.

Definition set_prev_version (v : option string) (s : state) : state :=
  {| errors := errors s; prev_version := v;
     prev_projects := prev_projects s; exitfuncs := exitfuncs s;
     tmpdirs := tmpdirs s; trace := trace s |}.

Definition set_prev_projects (ps : gset string) (s : state) : state :=
  {| errors := errors s; prev_version := prev_version s;
     prev_projects := ps; exitfuncs := exitfuncs s;
     tmpdirs := tmpdirs s; trace := trace s |}.

Definition set_exitfuncs (fs : list exitfunc) (s : state) : state :=
  {| errors := errors s; prev_version := prev_version s;
     prev_projects := prev_projects s; exitfuncs := fs;
     tmpdirs := tmpdirs s; trace := trace s |}.

Definition set_tmpdirs (ds : gset string) (s : state) : state :=
  {| errors := errors s; prev_version := prev_version s;
     prev_projects := prev_projects s; exitfuncs := exitfuncs s;
     tmpdirs := ds; trace := trace s |}.

Definition set_trace (t : list event) (s : state) : state :=
  {| errors := errors s; prev_version := prev_version s;
     prev_projects := prev_projects s; exitfuncs := exitfuncs s;
     tmpdirs := tmpdirs s; trace := t |}.

(** ** Computations: state and exceptions *)

Inductive outcome (A : Type) : Type :=
| Returned (a : A) (s : state)
| Raised (e : exn) (s : state).
Arguments Returned {A} a s.
Arguments Raised {A} e s.

Definition final_state {A} (o : outcome A) : state :=
  match o with
  | Returned _ s => s
  | Raised _ s => s
  end.

Definition M (A : Type) : Type := state -> outcome A.

Definition ret {A} (a : A) : M A := fun s => Returned a s.

Definition bind {A B} (c : M A) (k : A -> M B) : M B :=
  fun s =>
    match c s with
    | Returned a s' => k a s'
    | Raised e s' => Raised e s'
    end.

Definition raise {A} (e : exn) : M A := fun s => Raised e s.

Definition modify (f : state -> state) : M unit :=
  fun s => Returned tt (f s).

Definition gets {A} (f : state -> A) : M A := fun s => Returned (f s) s.

Declare Scope run_scope.
Delimit Scope run_scope with run.
Notation "x <- c1 ;; c2" := (bind c1 (fun x => c2))
  (at level 100, c1 at next level, right associativity) : run_scope.
Notation "c1 ;; c2" := (bind c1 (fun _ => c2))
  (at level 100, right associativity) : run_scope.
Local Open Scope run_scope.

(** [for x in l: body(x)] *)
Fixpoint for_each {A} (l : list A) (body : A -> M unit) : M unit :=
  match l with
  | [] => ret tt
  | x :: l' => body x ;; for_each l' body
  end.

(** [errors.append(e)] *)
Definition errors_append (e : diagnostic) : M unit :=
  modify (fun s => set_errors (errors s ++ [e]) s).

Definition call (ev : event) : M unit :=
  modify (fun s => set_trace (trace s ++ [ev]) s).

(** ** The collaborators as recorded calls *)

Section Run.

Variable env : Env.

(** [gitutils.commit_exists(repo, ref)]: asked without a working
    directory, before the repository is cloned. *)
Definition commit_exists (repo ref : string) : M bool :=
  call (CommitExists repo ref) ;;
  ret (gitutils_commit_exists env repo ref).

Definition clone_repo (workdir repo : string) : M unit :=
  call (CloneRepo workdir repo).

Definition sha_for_tag (workdir repo version : string) : M string :=
  call (ShaForTag workdir repo version) ;;
  ret (gitutils_sha_for_tag env workdir repo version).

Definition check_ancestry (workdir repo old_version sha : string)
    : M bool :=
  call (CheckAncestry workdir repo old_version sha) ;;
  ret (gitutils_check_ancestry env workdir repo old_version sha).

(** [requests.get(url).status_code]; nothing in [main] catches what
    [requests.get] raises. *)
Definition get (url : string) : M Z :=
  call (Get url) ;;
  match requests_get env url with
  | Response status_code => ret status_code
  | ConnectionError => raise (RequestException url)
  end.

Definition mkdtemp : M string :=
  let workdir := tempfile_mkdtemp env in
  call (Mkdtemp workdir) ;;
  modify (fun s => set_tmpdirs (tmpdirs s ∪ {[workdir]}) s) ;;
  ret workdir.

(** [atexit.register(f)] *)
Definition atexit_register (f : exitfunc) : M unit :=
  modify (fun s => set_exitfuncs (f :: exitfuncs s) s).

(** [' ' in announce_to] *)
Definition has_space (s : string) : bool :=
  bool_decide (" "%char ∈ list_ascii_of_string s).

(** ** [main], from the innermost loop outwards *)

(** Lines 131-211, the body of [for project in release['projects']]. *)
Definition for_project (workdir : string) (release : Release)
    (project : ProjectRef) : M unit :=
  if negb (is_a_hash (hash project)) then
    errors_append
      (NotAHash (repo project) (version release) (hash project))
  else
    sha_exists <- commit_exists (repo project) (hash project) ;;
    (if negb sha_exists
     then errors_append (NoCommit (hash project) (repo project))
     else ret tt) ;;
    version_exists <- commit_exists (repo project) (version release) ;;
    clone_repo workdir (repo project) ;;
    if version_exists then
      actual_sha <- sha_for_tag workdir (repo project) (version release) ;;
      if String.eqb actual_sha (hash project) then ret tt
      else
        errors_append
          (WrongCommit (version release) (repo project) actual_sha
             (hash project))
    else
      old <- gets prev_version ;;
      seen <- gets prev_projects ;;
      match old with
      | None | Some EmptyString => ret tt        (* not prev_version *)
      | Some old_version =>
          if negb (bool_decide (repo project ∈ seen)) then ret tt
          else
            is_ancestor <-
              check_ancestry workdir (repo project) old_version
                (hash project) ;;
            if is_ancestor then ret tt
            else
              errors_append
                (NotADescendant (repo project) (hash project) old_version)
      end.

(** Lines 125-213, the body of [for release in
    deliverable_info['releases']]. *)
Definition for_release (workdir : string) (release : Release) : M unit :=
  for_each (versionutils_validate_version env (version release))
    (fun e => errors_append (VersionError e)) ;;
  for_each (projects release) (for_project workdir release) ;;
  modify (set_prev_version (Some (version release))) ;;
  modify (set_prev_projects (list_to_set (repo <$> projects release))).

(** Lines 85-213, the body of [for filename in filenames]. *)
Definition for_filename (workdir : string) (filename : string) : M unit :=
  if negb (os_path_isfile env filename) then ret tt          (* continue *)
  else
    let deliverable_info := yaml_load env filename in
    match launchpad deliverable_info with
    | None => errors_append (NoLaunchpad filename)
    | Some lp_name =>
        status_code <- get ("https://api.launchpad.net/1.0/" +:+ lp_name) ;;
        if (status_code / 100 =? 4)%Z
        then errors_append (LaunchpadMissing lp_name)
        else ret tt
    end ;;
    match send_announcements_to deliverable_info with
    | None => errors_append (NoAnnouncements filename)
    | Some announce_to =>
        if has_space announce_to
        then errors_append (SpaceInAnnouncements announce_to filename)
        else ret tt
    end ;;
    modify (set_prev_version None) ;;
    modify (set_prev_projects ∅) ;;
    for_each (releases deliverable_info) (for_release workdir).

(** [args.input or gitutils.find_modified_deliverable_files()], then
    the glob over the current series when that is empty too. *)
Definition filenames_of (args : Args) : list string :=
  let filenames :=
    match input args with
    | [] => gitutils_find_modified_deliverable_files env
    | _ => input args
    end in
  match filenames with
  | [] => glob_glob_release env
  | _ => filenames
  end.

(** [main()]; its value is the status the process exits with. *)
Definition main (args : Args) : M Z :=
  let filenames := filenames_of args in
  modify (set_errors []) ;;
  workdir <- mkdtemp ;;
  atexit_register (cleanup_workdir (cleanup args) workdir) ;;
  for_each filenames (for_filename workdir) ;;
  errors <- gets errors ;;
  ret (match errors with [] => 0 | _ => 1 end)%Z.

(** ** Process exit *)

(** The body of [cleanup_workdir]: [shutil.rmtree] under
    [try ... except: pass] when cleanup was asked for, a message
    otherwise. *)
Definition run_exitfunc (f : exitfunc) (s : state) : state :=
  match f with
  | cleanup_workdir args_cleanup workdir =>
      if args_cleanup then
        let s' := set_trace (trace s ++ [Rmtree workdir]) s in
        if shutil_rmtree env workdir
        then set_tmpdirs (tmpdirs s' ∖ {[workdir]}) s'
        else s'
      else s
  end.

(** The interpreter runs the registered functions, last registered
    first, when [main] returns and when an exception leaves it. *)
Definition run_exitfuncs (s : state) : state :=
  fold_left (fun s f => run_exitfunc f s) (exitfuncs s) s.

(** The whole process: exit status and the state it leaves. An
    uncaught exception ends the process with status 1. *)
Definition process (args : Args) : Z * state :=
  match main args initial_state with
  | Returned status s => (status, run_exitfuncs s)
  | Raised _ s => (1%Z, run_exitfuncs s)
  end.

(** What a computation adds to [errors] and to the calls made. *)
Definition recorded {A} (c : M A) (s : state) : list diagnostic :=
  drop (length (errors s)) (errors (final_state (c s))).

Definition performed {A} (c : M A) (s : state) : list event :=
  drop (length (trace s)) (trace (final_state (c s))).

End Run.

(** ** How computations move the state *)

(** [grows P Q s s']: from [s] to [s'] the diagnostics and the calls
    were only appended to, by diagnostics satisfying [P] and calls
    satisfying [Q]; exit functions and directories are untouched. *)
Definition grows (P : diagnostic -> Prop) (Q : event -> Prop)
    (s s' : state) : Prop :=
  exitfuncs s' = exitfuncs s /\ tmpdirs s' = tmpdirs s /\
  exists es tr,
    errors s' = errors s ++ es /\ trace s' = trace s ++ tr /\
    Forall P es /\ Forall Q tr.

Definition steady (P : diagnostic -> Prop) (Q : event -> Prop)
    {A} (c : M A) : Prop :=
  forall s, grows P Q s (final_state (c s)).

(** A computation that never raises. *)
Definition total {A} (c : M A) : Prop :=
  forall s, exists a s', c s = Returned a s'.

Definition not_version_error (d : diagnostic) : Prop :=
  match d with VersionError _ => False | _ => True end.

Definition not_rmtree (ev : event) : Prop :=
  match ev with Rmtree _ => False | _ => True end.

Definition any_diagnostic (d : diagnostic) : Prop := True.


(** ** The design document's statements, as predicates on the model *)

(** "The claimed hash must be a descendant of the previous Release's
    hash for that same repository": the hash the previous release
    claims for a repository. *)
Definition previous_hash (previous : Release) (repository : string)
    : option string :=
  hash <$> List.find (fun p => String.eqb (repo p) repository)
             (projects previous).

(** "Not a descendant" is recorded exactly when the ancestry test of
    the claimed hash against the previous release's hash fails. *)
Definition descends_from_previous_hash (env : Env) (workdir : string)
    (previous release : Release) (project : ProjectRef) (s : state) : Prop :=
  (exists old,
     NotADescendant (repo project) (hash project) old
       ∈ recorded (for_project env workdir release project) s) <->
  (exists h,
     previous_hash previous (repo project) = Some h /\
     gitutils_check_ancestry env workdir (repo project) h (hash project)
       = false).

(** "The tag resolves to a commit equal to the claimed hash and no
    diagnostic is recorded, or it resolves to a different commit and an
    error reporting both values is recorded." *)
Definition tag_matches_or_reported (env : Env) (workdir : string)
    (release : Release) (project : ProjectRef) (s : state) : Prop :=
  let actual_sha :=
    gitutils_sha_for_tag env workdir (repo project) (version release) in
  let es := recorded (for_project env workdir release project) s in
  (actual_sha = hash project /\ es = []) \/
  (actual_sha <> hash project /\
   WrongCommit (version release) (repo project) actual_sha (hash project)
     ∈ es).

(** "The working directory created for the run is removed on process
    exit." *)
Definition workdir_removed (env : Env) (args : Args) : Prop :=
  tempfile_mkdtemp env ∉ tmpdirs (snd (process env args)).



Definition is_version_error (d : diagnostic) : bool :=
  match d with VersionError _ => true | _ => false end.

(** ** Sample documents and worlds *)

Module Sample.

Definition workdir : string := "/tmp/releases-5x2k9q".
Definition filename : string := "deliverables/mitaka/release-test.yaml".
Definition repository : string := "openstack/release-test".

Definition sha_a : string := "a26e6a2e8a5e321b2e3517dbb01a7b9a56a8bfd5".
Definition sha_b : string := "88af0f601895d54fb0a45b796cdd045a2b3636a3".
Definition sha_c : string := "218c9c82f168f1db681b27842b5a829428c6b5e1".
Definition sha_missing : string :=
  "de2885f544637e6ee6139df7dc7bf937925804dd".

Definition project (h : string) : ProjectRef :=
  {| repo := repository; hash := h |}.

Definition release (v h : string) : Release :=
  {| version := v; projects := [project h] |}.

Definition deliverable (rs : list Release) : Deliverable :=
  {| launchpad := Some "oslo.config";
     send_announcements_to := Some "openstack-dev@lists.openstack.org";
     releases := rs |}.

(** A world in which [filename] holds [d]: the answer of the bug
    tracker, whether [rmtree] succeeds, the refs the server confirms,
    the tags of the clone, and the pairs (old, new) with [new] a
    descendant of [old]. *)
Definition world (d : Deliverable) (answer : http_result)
    (rmtree_ok : bool) (confirmed : list string)
    (tags : list (string * string)) (descendants : list (string * string))
    : Env :=
  {| gitutils_find_modified_deliverable_files := [];
     glob_glob_release := [];
     tempfile_mkdtemp := workdir;
     shutil_rmtree := fun _ => rmtree_ok;
     os_path_isfile := fun f => String.eqb f filename;
     yaml_load := fun _ => d;
     requests_get := fun _ => answer;
     versionutils_validate_version := fun _ => [];
     gitutils_commit_exists := fun _ ref => bool_decide (ref ∈ confirmed);
     gitutils_sha_for_tag := fun _ _ v =>
       match List.find (fun t => String.eqb (fst t) v) tags with
       | Some t => snd t
       | None => EmptyString
       end;
     gitutils_check_ancestry := fun _ _ old sha =>
       bool_decide ((old, sha) ∈ descendants) |}.

Definition args : Args := {| cleanup := true; input := [filename] |}.

(** A hash followed by a newline, as a YAML block scalar yields. *)
Definition sha_newline : string := sha_a +:+ newline.

Definition newline_world : Env :=
  world (deliverable [release "0.8.0" sha_newline]) (Response 200) true
    [sha_a; "0.8.0"] [("0.8.0", sha_a)] [].

End Sample.

Module Lineage.

(** Tag [1.0.0] sits on [sha_a]; [sha_c] descends from it; [sha_b]
    is on another branch. The first release claims [sha_b] for
    [1.0.0], the second is new and claims [sha_c]. *)
Definition first : Release := Sample.release "1.0.0" Sample.sha_b.
Definition second : Release := Sample.release "1.1.0" Sample.sha_c.

Definition env : Env :=
  Sample.world (Sample.deliverable [first; second]) (Response 200) true
    [Sample.sha_a; Sample.sha_b; Sample.sha_c; "1.0.0"]
    [("1.0.0", Sample.sha_a)]
    [("1.0.0", Sample.sha_c); (Sample.sha_a, Sample.sha_c)].

(** The state in which the second release is reached. *)
Definition after_first : state :=
  final_state (for_release env Sample.workdir first initial_state).

End Lineage.

Module Unconfirmed.

(** Tag [0.8.0] of the clone is on [sha_a], which the release claims;
    the server, asked before the clone is made, confirms the tag but
    not the commit. *)
Definition release : Release := Sample.release "0.8.0" Sample.sha_a.

Definition env : Env :=
  Sample.world (Sample.deliverable [release]) (Response 200) true
    ["0.8.0"] [("0.8.0", Sample.sha_a)] [].

End Unconfirmed.

Module Tagged.

(** Tag [0.8.0] is on [sha_a] and the release claims [sha_a]. *)
Definition release : Release := Sample.release "0.8.0" Sample.sha_a.

Definition env : Env :=
  Sample.world (Sample.deliverable [release]) (Response 200) true
    [Sample.sha_a; "0.8.0"] [("0.8.0", Sample.sha_a)] [].

End Tagged.

Module Decreasing.

(** Version [1.0.0] followed by [0.9.0]; both hashes are confirmed
    and both tags sit on the claimed commits. *)
Definition env : Env :=
  Sample.world
    (Sample.deliverable
       [Sample.release "1.0.0" Sample.sha_a;
        Sample.release "0.9.0" Sample.sha_b])
    (Response 200) true
    [Sample.sha_a; Sample.sha_b; "1.0.0"; "0.9.0"]
    [("1.0.0", Sample.sha_a); ("0.9.0", Sample.sha_b)] [].

End Decreasing.

Module Unreachable.

(** The bug tracker cannot be reached: [requests.get] raises. *)
Definition env : Env :=
  Sample.world (Sample.deliverable [Sample.release "0.8.0" Sample.sha_a])
    ConnectionError true
    [Sample.sha_a; "0.8.0"] [("0.8.0", Sample.sha_a)] [].

Definition url : string := "https://api.launchpad.net/1.0/oslo.config".

End Unreachable.

Module Retagged.

(** One release claiming a commit the repository does not have, for a
    version whose tag exists already, on [sha_a]. *)
Definition release : Release := Sample.release "0.8.0" Sample.sha_missing.

Definition env : Env :=
  Sample.world (Sample.deliverable [release]) (Response 200) true
    [Sample.sha_a; "0.8.0"] [("0.8.0", Sample.sha_a)] [].

End Retagged.

Module Fresh.

(** One release claiming a commit the repository does not have, for a
    version not tagged yet. *)
Definition release : Release := Sample.release "99.0.0" Sample.sha_missing.

Definition env : Env :=
  Sample.world (Sample.deliverable [release]) (Response 200) true
    [Sample.sha_a] [] [].

End Fresh.

Module Stuck.

(** Everything about the release is in order; removing the working
    directory fails at exit. *)
Definition env : Env :=
  Sample.world (Sample.deliverable [Sample.release "0.8.0" Sample.sha_a])
    (Response 200) false
    [Sample.sha_a; "0.8.0"] [("0.8.0", Sample.sha_a)] [].

End Stuck.

Module Twice.

(** The file of [Retagged], given twice on the command line. *)
Definition args : Args :=
  {| cleanup := true; input := [Sample.filename; Sample.filename] |}.

(** A file that is not there any more. *)
Definition gone : Args :=
  {| cleanup := true; input := ["deliverables/mitaka/removed.yaml"] |}.

End Twice.

(** ** Effects in closed form *)

(** The state after [es] was appended to [errors] and [tr] to the calls,
    with the previous-release variables set to [old] and [seen]. *)
Definition upd (es : list diagnostic) (tr : list event)
    (old : option string) (seen : gset string) (s : state) : state :=
  {| errors := errors s ++ es; prev_version := old; prev_projects := seen;
     exitfuncs := exitfuncs s; tmpdirs := tmpdirs s;
     trace := trace s ++ tr |}.

Definition finish {A} (r : A + exn) (s : state) : outcome A :=
  match r with
  | inl a => Returned a s
  | inr e => Raised e s
  end.

(** A computation that reads nothing of the state but the
    previous-release variables, and only appends to [errors], with
    diagnostics satisfying [P], and to the calls, with calls satisfying
    [Q]. *)
Definition uniform (P : diagnostic -> Prop) (Q : event -> Prop)
    {A} (c : M A) : Prop :=
  forall old seen, exists r es tr old' seen',
    Forall P es /\ Forall Q tr /\
    forall s, prev_version s = old -> prev_projects s = seen ->
      c s = finish r (upd es tr old' seen' s).

(** [not prev_version], and the test on the previous repositories. *)
Definition has_previous (old : option string) (seen : gset string)
    (repository : string) : option string :=
  match old with
  | Some (String c v) =>
      if bool_decide (repository ∈ seen) then Some (String c v) else None
  | _ => None
  end.

(** The part of the program a diagnostic comes from. *)
Inductive origin : Type :=
| FromLaunchpad | FromAnnouncements | FromVersion | FromProject.

Definition origin_of (d : diagnostic) : origin :=
  match d with
  | NoLaunchpad _ | LaunchpadMissing _ => FromLaunchpad
  | NoAnnouncements _ | SpaceInAnnouncements _ _ => FromAnnouncements
  | VersionError _ => FromVersion
  | _ => FromProject
  end.

Definition from_release (d : diagnostic) : Prop :=
  origin_of d = FromVersion \/ origin_of d = FromProject.

(** What the launchpad test of a file appends. *)
Definition launchpad_diagnostics (env : Env) (filename : string)
    : list diagnostic :=
  match launchpad (yaml_load env filename) with
  | None => [NoLaunchpad filename]
  | Some lp_name =>
      match requests_get env ("https://api.launchpad.net/1.0/" +:+ lp_name) with
      | Response status_code =>
          if (status_code / 100 =? 4)%Z then [LaunchpadMissing lp_name]
          else []
      | ConnectionError => []
      end
  end.

Definition launchpad_calls (env : Env) (filename : string) : list event :=
  match launchpad (yaml_load env filename) with
  | None => []
  | Some lp_name => [Get ("https://api.launchpad.net/1.0/" +:+ lp_name)]
  end.

(** The request of a file that exists raises. *)
Definition request_raises (env : Env) (filename : string) : Prop :=
  exists lp_name,
    launchpad (yaml_load env filename) = Some lp_name /\
    requests_get env ("https://api.launchpad.net/1.0/" +:+ lp_name)
      = ConnectionError.

(** What the test of the announcement address appends. *)
Definition announcements_diagnostics (env : Env) (filename : string)
    : list diagnostic :=
  match send_announcements_to (yaml_load env filename) with
  | None => [NoAnnouncements filename]
  | Some announce_to =>
      if has_space announce_to
      then [SpaceInAnnouncements announce_to filename]
      else []
  end.

Definition is_get (ev : event) : bool :=
  match ev with Get _ => true | _ => false end.

Definition is_clone (ev : event) : bool :=
  match ev with CloneRepo _ _ => true | _ => false end.

(** A query answered by the clone in the working directory. *)
Definition is_local_query (ev : event) : bool :=
  match ev with ShaForTag _ _ _ | CheckAncestry _ _ _ _ => true | _ => false end.

(** A string with its ASCII capitals lowered. *)
Fixpoint lower_string (s : string) : string :=
  match s with
  | EmptyString => EmptyString
  | String c s' => String (Re.lower c) (lower_string s')
  end.

(** The run over one file alone, with the same options. *)
Definition alone (args : Args) (filename : string) : Args :=
  {| cleanup := cleanup args; input := [filename] |}.

(** What [for_project] appends, read off its branches. *)
Definition project_diagnostics (env : Env) (workdir : string)
    (release : Release) (project : ProjectRef) (old : option string)
    (seen : gset string) : list diagnostic :=
  if is_a_hash (hash project) then
    (if gitutils_commit_exists env (repo project) (hash project)
     then [] else [NoCommit (hash project) (repo project)]) ++
    (if gitutils_commit_exists env (repo project) (version release) then
       let actual_sha :=
         gitutils_sha_for_tag env workdir (repo project) (version release) in
       if String.eqb actual_sha (hash project) then []
       else [WrongCommit (version release) (repo project) actual_sha
               (hash project)]
     else
       match has_previous old seen (repo project) with
       | Some old_version =>
           if gitutils_check_ancestry env workdir (repo project) old_version
                (hash project)
           then []
           else [NotADescendant (repo project) (hash project) old_version]
       | None => []
       end)
  else [NotAHash (repo project) (version release) (hash project)].

Definition project_calls (env : Env) (workdir : string)
    (release : Release) (project : ProjectRef) (old : option string)
    (seen : gset string) : list event :=
  if is_a_hash (hash project) then
    [CommitExists (repo project) (hash project);
     CommitExists (repo project) (version release);
     CloneRepo workdir (repo project)] ++
    (if gitutils_commit_exists env (repo project) (version release) then
       [ShaForTag workdir (repo project) (version release)]
     else
       match has_previous old seen (repo project) with
       | Some old_version =>
           [CheckAncestry workdir (repo project) old_version (hash project)]
       | None => []
       end)
  else [].

Definition is_ancestry_test (ev : event) : bool :=
  match ev with CheckAncestry _ _ _ _ => true | _ => false end.

(** [not prev_version] *)
Definition no_previous (s : state) : Prop :=
  prev_version s = None \/ prev_version s = Some EmptyString.



(** * Properties *)

(** ** The hash format test *)

Section HashFormat.

(** Under IGNORECASE the class [[a-f0-9]] is the hexadecimal
    characters of either case. *)
Lemma in_class_hex (c : ascii) :
  Re.in_class true hash_ranges c = is_hex_char c.
Proof.
  destruct c as [[] [] [] [] [] [] [] []]; vm_compute; reflexivity.
Qed.

Lemma search_from_anchored (p : Re.pattern) (s : string) :
  Re.search_from true (Re.AT_BEGINNING :: p) false s = false.
Proof. induction s as [|c s IH]; simpl; auto. Qed.

Lemma repeat_in_split (n : nat) (s rest : string) :
  Re.repeat_in true hash_ranges n s = Some rest <->
  exists pre, s = pre +:+ rest /\ String.length pre = n /\
              all_chars is_hex_char pre = true.
Proof.
  revert s. induction n as [|n IH]; intros s; cbn [Re.repeat_in].
  - split.
    + intros [= ->]. exists EmptyString. auto.
    + intros ([|c pre] & -> & Hlen & _); [reflexivity | discriminate].
  - destruct s as [|c s].
    + split; [discriminate |].
      intros ([|c pre] & Heq & Hlen & _); discriminate.
    + rewrite in_class_hex.
      destruct (is_hex_char c) eqn:Hc.
      * rewrite IH. split.
        -- intros (pre & -> & Hlen & Hall). exists (String c pre).
           simpl. rewrite Hc, Hlen, Hall. auto.
        -- intros ([|c' pre] & Heq & Hlen & Hall); [discriminate |].
           simpl in *. injection Heq as <- ->. injection Hlen as Hlen.
           apply andb_prop in Hall as [_ Hall]. eauto.
      * split; [discriminate |].
        intros ([|c' pre] & Heq & Hlen & Hall); [discriminate |].
        simpl in *. injection Heq as <- ->. rewrite Hc in Hall.
        discriminate.
Qed.

Lemma is_a_hash_unfold (val : string) :
  is_a_hash val =
  match Re.repeat_in true hash_ranges 40 val with
  | Some rest => Re.at_end rest
  | None => false
  end.
Proof.
  unfold is_a_hash, Re.search, hash_pattern.
  assert (Hs : Re.search_from true
            [Re.AT_BEGINNING; Re.REPEAT_IN hash_ranges 40; Re.AT_END] true val =
          Re.match_here true
            [Re.AT_BEGINNING; Re.REPEAT_IN hash_ranges 40; Re.AT_END] true val).
  { destruct val as [|c val]; cbn [Re.search_from].
    - apply orb_false_r.
    - rewrite search_from_anchored. apply orb_false_r. }
  rewrite Hs. cbn [Re.match_here andb].
  destruct (Re.repeat_in true hash_ranges 40 val); [|reflexivity].
  apply andb_true_r.
Qed.

Lemma at_end_cases (s : string) :
  Re.at_end s = true <-> s = EmptyString \/ s = newline.
Proof.
  destruct s as [|c [|c' s]]; simpl.
  - split; auto.
  - split.
    + intros H. right. apply Ascii.eqb_eq in H. subst c. reflexivity.
    + intros [H|H]; [discriminate |]. injection H as ->. reflexivity.
  - split; [discriminate |]. intros [H|H]; discriminate.
Qed.

Lemma append_empty_r (s : string) : s +:+ EmptyString = s.
Proof.
  induction s as [|c s IH]; [reflexivity |].
  change (String c (s +:+ EmptyString) = String c s). now rewrite IH.
Qed.

(** What [is_a_hash] accepts: 40 hexadecimal characters, alone or
    followed by one newline. *)
Lemma is_a_hash_accepts (h : string) :
  is_a_hash h = true <->
  hex40 h = true \/ exists h', hex40 h' = true /\ h = h' +:+ newline.
Proof.
  rewrite is_a_hash_unfold. unfold hex40. split.
  - destruct (Re.repeat_in true hash_ranges 40 h) as [rest|] eqn:Hr;
      [|discriminate].
    apply repeat_in_split in Hr as (pre & -> & Hlen & Hall).
    intros [->| ->]%at_end_cases.
    + left. rewrite append_empty_r, Hlen, Hall. reflexivity.
    + right. exists pre. rewrite Hlen, Hall. auto.
  - intros [H | (h' & H & ->)];
      apply andb_prop in H as [Hlen%Nat.eqb_eq Hall].
    + assert (Hr : Re.repeat_in true hash_ranges 40 h = Some EmptyString).
      { apply repeat_in_split. exists h. rewrite append_empty_r. auto. }
      rewrite Hr. reflexivity.
    + assert (Hr : Re.repeat_in true hash_ranges 40 (h' +:+ newline)
                   = Some newline).
      { apply repeat_in_split. exists h'. auto. }
      rewrite Hr. reflexivity.
Qed.

(** Every string of exactly 40 hexadecimal characters is accepted. *)
Lemma hex40_is_a_hash (h : string) : hex40 h = true -> is_a_hash h = true.
Proof. intros H. apply is_a_hash_accepts. auto. Qed.

End HashFormat.

(** ** Moving the state: composition rules *)

Section Moves.

Variables (P : diagnostic -> Prop) (Q : event -> Prop).

Lemma grows_refl s : grows P Q s s.
Proof.
  repeat split. exists [], []. rewrite !app_nil_r. auto.
Qed.

Lemma grows_trans s1 s2 s3 :
  grows P Q s1 s2 -> grows P Q s2 s3 -> grows P Q s1 s3.
Proof.
  intros (Hx1 & Hd1 & es1 & tr1 & He1 & Ht1 & HP1 & HQ1)
         (Hx2 & Hd2 & es2 & tr2 & He2 & Ht2 & HP2 & HQ2).
  split; [congruence |]. split; [congruence |].
  exists (es1 ++ es2), (tr1 ++ tr2).
  rewrite He2, He1, Ht2, Ht1, !app_assoc.
  repeat split; auto; apply Forall_app; auto.
Qed.

Lemma steady_ret {A} (a : A) : steady P Q (ret a).
Proof. intros s. apply grows_refl. Qed.

Lemma steady_bind {A B} (c : M A) (k : A -> M B) :
  steady P Q c -> (forall a, steady P Q (k a)) -> steady P Q (bind c k).
Proof.
  intros Hc Hk s. unfold bind. specialize (Hc s).
  destruct (c s) as [a s' | e s']; simpl in *; [|exact Hc].
  eapply grows_trans; [exact Hc | apply Hk].
Qed.

Lemma steady_gets {A} (f : state -> A) : steady P Q (gets f).
Proof. intros s. apply grows_refl. Qed.

Lemma steady_errors_append d : P d -> steady P Q (errors_append d).
Proof.
  intros Hd s. repeat split. exists [d], []. simpl.
  rewrite app_nil_r. auto.
Qed.

Lemma steady_call ev : Q ev -> steady P Q (call ev).
Proof.
  intros Hev s. repeat split. exists [], [ev]. simpl.
  rewrite app_nil_r. auto.
Qed.

Lemma steady_set_prev_version v : steady P Q (modify (set_prev_version v)).
Proof.
  intros s. repeat split. exists [], []. simpl. rewrite !app_nil_r. auto.
Qed.

Lemma steady_set_prev_projects ps :
  steady P Q (modify (set_prev_projects ps)).
Proof.
  intros s. repeat split. exists [], []. simpl. rewrite !app_nil_r. auto.
Qed.

Lemma steady_raise {A} e : steady P Q (@raise A e).
Proof. intros s. apply grows_refl. Qed.

Lemma steady_for_each {A} (l : list A) (body : A -> M unit) :
  (forall x, steady P Q (body x)) -> steady P Q (for_each l body).
Proof.
  intros Hbody. induction l as [|x l IH]; simpl.
  - apply steady_ret.
  - apply steady_bind; auto.
Qed.

End Moves.

Lemma total_ret {A} (a : A) : total (ret a).
Proof. intros s. eexists _, _. reflexivity. Qed.

Lemma total_bind {A B} (c : M A) (k : A -> M B) :
  total c -> (forall a, total (k a)) -> total (bind c k).
Proof.
  intros Hc Hk s. unfold bind. destruct (Hc s) as (a & s' & ->). apply Hk.
Qed.

Lemma total_modify f : total (modify f).
Proof. intros s. eexists _, _. reflexivity. Qed.

Lemma total_gets {A} (f : state -> A) : total (gets f).
Proof. intros s. eexists _, _. reflexivity. Qed.

Lemma total_for_each {A} (l : list A) (body : A -> M unit) :
  (forall x, total (body x)) -> total (for_each l body).
Proof.
  intros Hbody. induction l as [|x l IH]; simpl.
  - apply total_ret.
  - apply total_bind; auto.
Qed.

(** What was recorded is what the final list has beyond the initial
    one. *)
Lemma grows_recorded P Q {A} (c : M A) s :
  grows P Q s (final_state (c s)) ->
  errors (final_state (c s)) = errors s ++ recorded c s /\
  trace (final_state (c s)) = trace s ++ performed c s /\
  Forall P (recorded c s) /\ Forall Q (performed c s).
Proof.
  intros (_ & _ & es & tr & He & Ht & HP & HQ). unfold recorded, performed.
  rewrite He, Ht, !drop_app_length. auto.
Qed.

Ltac steady_step :=
  first
    [ apply steady_ret | apply steady_gets | apply steady_raise
    | apply steady_set_prev_version | apply steady_set_prev_projects
    | apply steady_bind
    | apply steady_for_each
    | apply steady_errors_append
    | apply steady_call ].

Ltac total_step :=
  first
    [ apply total_ret | apply total_gets | apply total_modify
    | apply total_bind | apply total_for_each ].

Section RunFacts.

Variable env : Env.

Lemma for_project_steady P Q workdir release project :
  (forall d, not_version_error d -> P d) ->
  (forall ev, is_lookup ev = true -> Q ev) ->
  steady P Q (for_project env workdir release project).
Proof.
  intros HP HQ. unfold for_project, commit_exists, clone_repo, sha_for_tag,
    check_ancestry.
  repeat first
    [ steady_step
    | progress intros
    | match goal with
      | |- steady _ _ (if ?b then _ else _) => destruct b
      | |- steady _ _ (match ?x with _ => _ end) => destruct x
      end
    | apply HP; exact I
    | apply HQ; reflexivity ].
Qed.

Lemma for_project_total workdir release project :
  total (for_project env workdir release project).
Proof.
  unfold for_project, commit_exists, clone_repo, sha_for_tag,
    check_ancestry, errors_append, call.
  repeat first
    [ total_step
    | progress intros
    | match goal with
      | |- total (if ?b then _ else _) => destruct b
      | |- total (match ?x with _ => _ end) => destruct x
      end ].
Qed.

Lemma for_release_steady Q workdir release :
  (forall ev, is_lookup ev = true -> Q ev) ->
  steady any_diagnostic Q (for_release env workdir release).
Proof.
  intros HQ. unfold for_release.
  repeat first
    [ apply for_project_steady; [intros; exact I | exact HQ]
    | steady_step
    | progress intros
    | exact I ].
Qed.

Lemma for_release_total workdir release :
  total (for_release env workdir release).
Proof.
  unfold for_release, errors_append.
  repeat first [ apply for_project_total | total_step | progress intros ].
Qed.

Lemma for_filename_steady workdir filename :
  steady any_diagnostic not_rmtree (for_filename env workdir filename).
Proof.
  unfold for_filename, get.
  repeat first
    [ apply for_release_steady; intros [] ?; try discriminate; exact I
    | steady_step
    | progress intros
    | match goal with
      | |- steady _ _ (if ?b then _ else _) => destruct b
      | |- steady _ _ (match ?x with _ => _ end) => destruct x
      end
    | exact I ].
Qed.

(** Only [requests.get] can raise. *)
Lemma for_filename_total workdir filename :
  (forall url, requests_get env url <> ConnectionError) ->
  total (for_filename env workdir filename).
Proof.
  intros Hget. unfold for_filename, get, errors_append, call.
  repeat first
    [ apply for_release_total
    | total_step
    | progress intros
    | match goal with
      | |- total (match requests_get env ?u with _ => _ end) =>
          specialize (Hget u); destruct (requests_get env u);
          [|congruence]
      | |- total (if ?b then _ else _) => destruct b
      | |- total (match ?x with _ => _ end) => destruct x
      end ].
Qed.

End RunFacts.

(** * The statements of the design document *)

(** ** Hash format *)

(** C1. The format test is meant to accept a string exactly when it is
    40 hexadecimal characters of either case. It does accept all of
    those ([hex40_is_a_hash]), but [$] also matches before a final
    newline: the 41-character string made of a hash and a newline is
    not 40 hexadecimal characters and is accepted. *)
Theorem is_a_hash_trailing_newline :
  hex40 Sample.sha_newline = false /\ is_a_hash Sample.sha_newline = true.
Proof. split; vm_compute; reflexivity. Qed.

(** A rejected hash gives one format error and no call at all. *)
Lemma for_project_not_a_hash env workdir release project s :
  is_a_hash (hash project) = false ->
  recorded (for_project env workdir release project) s =
    [NotAHash (repo project) (version release) (hash project)] /\
  performed (for_project env workdir release project) s = [].
Proof.
  intros H. unfold recorded, performed, for_project. rewrite H. simpl.
  rewrite drop_app_length, drop_all. auto.
Qed.

(** C5. A malformed hash is meant to give exactly one format error and
    no repository lookup. That holds for every hash [is_a_hash] rejects
    ([for_project_not_a_hash]); the hash followed by a newline is
    malformed, yet no format error is recorded for it and the existence
    and tag lookups are made with it. *)
Theorem malformed_hash_looked_up :
  let r := Sample.release "0.8.0" Sample.sha_newline in
  let p := Sample.project Sample.sha_newline in
  let check := for_project Sample.newline_world Sample.workdir r p in
  hex40 (hash p) = false /\
  recorded check initial_state =
    [NoCommit Sample.sha_newline Sample.repository;
     WrongCommit "0.8.0" Sample.repository Sample.sha_a Sample.sha_newline] /\
  performed check initial_state =
    [CommitExists Sample.repository Sample.sha_newline;
     CommitExists Sample.repository "0.8.0";
     CloneRepo Sample.workdir Sample.repository;
     ShaForTag Sample.workdir Sample.repository "0.8.0"].
Proof. repeat split; vm_compute; reflexivity. Qed.

(** ** Descendants of the previous release *)

Ltac run :=
  cbv beta iota delta
    [bind ret raise modify gets call errors_append commit_exists clone_repo
     sha_for_tag check_ancestry get mkdtemp atexit_register final_state
     recorded performed];
  cbn [errors trace prev_version prev_projects exitfuncs tmpdirs set_errors
       set_trace set_prev_version set_prev_projects set_exitfuncs
       set_tmpdirs negb].

(** What a project of a new release adds when the previous release has
    a version and names its repository. *)
Lemma for_project_new_release env workdir release project s old :
  prev_version s = Some old -> old <> EmptyString ->
  repo project ∈ prev_projects s ->
  is_a_hash (hash project) = true ->
  gitutils_commit_exists env (repo project) (version release) = false ->
  recorded (for_project env workdir release project) s =
    (if gitutils_commit_exists env (repo project) (hash project)
     then [] else [NoCommit (hash project) (repo project)]) ++
    (if gitutils_check_ancestry env workdir (repo project) old (hash project)
     then [] else [NotADescendant (repo project) (hash project) old]).
Proof.
  intros Hold Hne Hin Hhash Htag. unfold for_project. rewrite Hhash. run.
  rewrite Htag.
  destruct (gitutils_commit_exists env (repo project) (hash project)); run;
    rewrite Hold; (destruct old as [|c old]; [congruence |]);
    rewrite (bool_decide_eq_true_2 _ Hin); run;
    destruct (gitutils_check_ancestry env workdir (repo project)
                (String c old) (hash project)); run;
    rewrite <- ?app_assoc, ?drop_app_length, ?drop_all; reflexivity.
Qed.


(** C3 as stated fails: with tag [1.0.0] on another commit than the one
    the previous release claims, the new hash descends from the tag but
    not from the claimed hash, and nothing is recorded. *)
Lemma previous_hash_not_consulted :
  ~ descends_from_previous_hash Lineage.env Sample.workdir
      Lineage.first Lineage.second (Sample.project Sample.sha_c)
      Lineage.after_first.
Proof.
  intros [_ H].
  destruct H as [old Hin].
  - exists Sample.sha_b. split; vm_compute; reflexivity.
  - assert (Hnone : recorded
              (for_project Lineage.env Sample.workdir Lineage.second
                 (Sample.project Sample.sha_c)) Lineage.after_first = [])
      by (vm_compute; reflexivity).
    rewrite Hnone in Hin. inversion Hin.
Qed.

(** C3, amended. For a release after one with a non-empty version, and
    a project with a well-formed hash, whose version tag does not exist
    yet and whose repository the previous release names: "not a
    descendant" is recorded if and only if the ancestry test of the
    claimed hash against the previous release's version fails. *)
Theorem not_a_descendant_iff env workdir previous release project s :
  prev_version s = Some (version previous) ->
  prev_projects s = list_to_set (repo <$> projects previous) ->
  version previous <> EmptyString ->
  repo project ∈ repo <$> projects previous ->
  is_a_hash (hash project) = true ->
  gitutils_commit_exists env (repo project) (version release) = false ->
  (exists old,
     NotADescendant (repo project) (hash project) old
       ∈ recorded (for_project env workdir release project) s) <->
  gitutils_check_ancestry env workdir (repo project) (version previous)
    (hash project) = false.
Proof.
  intros Hv Hp Hne Hin Hhash Htag.
  rewrite (for_project_new_release env workdir release project s
             (version previous)); auto.
  2: { rewrite Hp. apply elem_of_list_to_set. exact Hin. }
  destruct (gitutils_check_ancestry env workdir (repo project)
              (version previous) (hash project)).
  - split; [|discriminate]. intros [old Hold]. exfalso.
    rewrite app_nil_r in Hold.
    destruct (gitutils_commit_exists env (repo project) (hash project)).
    + inversion Hold.
    + apply list_elem_of_singleton in Hold. discriminate.
  - split; [reflexivity |]. intros _. exists (version previous).
    apply elem_of_app. right. apply list_elem_of_singleton. reflexivity.
Qed.

Lemma not_a_descendant_iff_witness :
  (exists old,
     NotADescendant Sample.repository Sample.sha_c old
       ∈ recorded
           (for_project Lineage.env Sample.workdir Lineage.second
              (Sample.project Sample.sha_c)) Lineage.after_first) <->
  gitutils_check_ancestry Lineage.env Sample.workdir Sample.repository
    "1.0.0" Sample.sha_c = false.
Proof.
  apply (not_a_descendant_iff Lineage.env Sample.workdir Lineage.first
           Lineage.second (Sample.project Sample.sha_c) Lineage.after_first).
  - vm_compute; reflexivity.
  - vm_compute; reflexivity.
  - discriminate.
  - apply list_elem_of_singleton. reflexivity.
  - vm_compute; reflexivity.
  - vm_compute; reflexivity.
Defined.

(** ** Existing tags *)

(** Where the server does not confirm the commit the tag of the clone
    resolves to, the tag matches the claimed hash and a diagnostic is
    recorded all the same, by the existence test that comes first. *)
Lemma tag_matches_with_diagnostic :
  ~ tag_matches_or_reported Unconfirmed.env Sample.workdir
      Unconfirmed.release (Sample.project Sample.sha_a) initial_state.
Proof.
  unfold tag_matches_or_reported.
  assert (Hes : recorded
            (for_project Unconfirmed.env Sample.workdir Unconfirmed.release
               (Sample.project Sample.sha_a)) initial_state
          = [NoCommit Sample.sha_a Sample.repository])
    by (vm_compute; reflexivity).
  rewrite Hes. intros [[_ H] | [H _]].
  - discriminate H.
  - apply H. vm_compute. reflexivity.
Qed.

(** For a project with a well-formed hash whose version
    tag exists, one of two outcomes occurs and never both: the tag
    resolves to the claimed hash and the tag test records nothing, or it
    resolves to something else and one error with both values is
    recorded. The only other diagnostic for the project is the "No
    commit" error of the existence test. *)
Theorem tag_matches_or_wrong_commit env workdir release project s :
  is_a_hash (hash project) = true ->
  gitutils_commit_exists env (repo project) (version release) = true ->
  let actual_sha :=
    gitutils_sha_for_tag env workdir (repo project) (version release) in
  let existence :=
    if gitutils_commit_exists env (repo project) (hash project)
    then [] else [NoCommit (hash project) (repo project)] in
  let es := recorded (for_project env workdir release project) s in
  (actual_sha = hash project /\ es = existence) \/
  (actual_sha <> hash project /\
   es = existence ++
        [WrongCommit (version release) (repo project) actual_sha
           (hash project)]).
Proof.
  intros Hhash Htag actual_sha existence es. subst es existence.
  unfold for_project. rewrite Hhash. run. rewrite Htag.
  fold actual_sha.
  destruct (gitutils_commit_exists env (repo project) (hash project)); run;
    fold actual_sha;
    destruct (String.eqb_spec actual_sha (hash project)) as [Heq | Hne];
    [left | right | left | right]; (split; [assumption |]); run;
    rewrite <- ?app_assoc, ?drop_app_length, ?drop_all; reflexivity.
Qed.

Lemma tag_matches_or_wrong_commit_witness :
  recorded
    (for_project Tagged.env Sample.workdir Tagged.release
       (Sample.project Sample.sha_a)) initial_state = [].
Proof.
  destruct (tag_matches_or_wrong_commit Tagged.env Sample.workdir
              Tagged.release (Sample.project Sample.sha_a) initial_state)
    as [[_ H] | [H _]].
  - vm_compute; reflexivity.
  - vm_compute; reflexivity.
  - exact H.
  - exfalso. apply H. vm_compute. reflexivity.
Defined.

(** ** Version errors *)

Lemma version_loop (l : list string) s :
  for_each l (fun e => errors_append (VersionError e)) s =
  Returned tt (set_errors (errors s ++ (VersionError <$> l)) s).
Proof.
  revert s. induction l as [|e l IH]; intros s.
  - destruct s. simpl. unfold ret, set_errors. simpl.
    rewrite app_nil_r. reflexivity.
  - cbn [for_each]. unfold bind at 1. unfold errors_append at 1, modify.
    rewrite IH. unfold set_errors. simpl. rewrite <- app_assoc.
    reflexivity.
Qed.

Lemma for_release_errors env workdir release s :
  exists es,
    errors (final_state (for_release env workdir release s)) =
      errors s ++
      (VersionError <$> versionutils_validate_version env (version release))
      ++ es /\
    Forall not_version_error es.
Proof.
  unfold for_release. unfold bind at 1. rewrite version_loop.
  set (s1 := set_errors _ s).
  pose proof (steady_for_each not_version_error (fun _ => True)
    (projects release) (for_project env workdir release)
    (fun p => for_project_steady env _ _ workdir release p
                (fun d H => H) (fun _ _ => I)) s1)
    as (_ & _ & es & tr & He & _ & Hes & _).
  destruct (total_for_each (projects release)
    (for_project env workdir release)
    (for_project_total env workdir release) s1) as (a2 & s2 & H2).
  unfold bind. rewrite H2 in *. simpl in *. exists es.
  rewrite He, <- app_assoc. auto.
Qed.

Lemma filter_not_version_error es :
  Forall not_version_error es -> List.filter is_version_error es = [].
Proof.
  induction 1 as [|d es Hd _ IH]; [reflexivity |].
  destruct d; simpl; auto; contradiction.
Qed.

Lemma filter_version_errors (l : list string) :
  List.filter is_version_error (VersionError <$> l) = VersionError <$> l.
Proof.
  induction l as [|e l IH]; [reflexivity |].
  rewrite fmap_cons. cbn [List.filter is_version_error]. rewrite IH.
  reflexivity.
Qed.

Lemma releases_version_errors env workdir (rs : list Release) s :
  List.filter is_version_error
    (errors (final_state (for_each rs (for_release env workdir) s))) =
  List.filter is_version_error (errors s) ++
  (VersionError <$>
     concat ((fun r => versionutils_validate_version env (version r))
               <$> rs)).
Proof.
  revert s. induction rs as [|r rs IH]; intros s.
  - simpl. rewrite app_nil_r. reflexivity.
  - cbn [for_each]. unfold bind.
    destruct (for_release_errors env workdir r s) as (es & He & Hes).
    destruct (for_release_total env workdir r s) as (a & s1 & H1).
    rewrite H1 in *. simpl in He. rewrite IH, He.
    rewrite !List.filter_app, filter_version_errors,
      (filter_not_version_error es Hes), app_nil_r.
    simpl. rewrite fmap_app, app_assoc. reflexivity.
Qed.


(** Whatever the order of the releases of a deliverable,
    decreasing included, the version errors recorded for them are the
    errors [validate_version] reports for each version on its own, in
    the order of the releases: no error comes from comparing the
    versions of two releases. *)
Theorem version_errors_per_release env workdir (rs : list Release) s :
  List.filter is_version_error
    (recorded (for_each rs (for_release env workdir)) s) =
  VersionError <$>
    concat ((fun r => versionutils_validate_version env (version r)) <$> rs).
Proof.
  pose proof (releases_version_errors env workdir rs s) as Hall.
  pose proof (steady_for_each any_diagnostic (fun _ => True) rs
    (for_release env workdir)
    (fun r => for_release_steady env _ workdir r (fun _ _ => I)) s) as Hg.
  apply grows_recorded in Hg as (He & _).
  rewrite He, List.filter_app in Hall.
  apply app_inv_head in Hall. exact Hall.
Qed.

(** ** The whole run *)

(** [main] is the file loop between a fixed prologue and epilogue. *)
Lemma main_unfold env args s0 :
  main env args s0 =
  let workdir := tempfile_mkdtemp env in
  let s1 :=
    set_exitfuncs (cleanup_workdir (cleanup args) workdir :: exitfuncs s0)
      (set_tmpdirs (tmpdirs s0 ∪ {[workdir]})
         (set_trace (trace s0 ++ [Mkdtemp workdir]) (set_errors [] s0))) in
  match for_each (filenames_of env args) (for_filename env workdir) s1 with
  | Returned _ s2 =>
      Returned (match errors s2 with [] => 0 | _ => 1 end)%Z s2
  | Raised e s2 => Raised e s2
  end.
Proof. reflexivity. Qed.

(** Whenever [main] reaches its end, the status it returns is
    non-zero if and only if [errors] is non-empty at that point, and it
    does reach its end unless a request raises. Nothing but [errors] is
    consulted; the program keeps no list of warnings. *)
Theorem exit_status_iff_errors env args s0 :
  (forall status s,
     main env args s0 = Returned status s ->
     status <> 0%Z <-> errors s <> []) /\
  ((forall url, requests_get env url <> ConnectionError) ->
   exists status s, main env args s0 = Returned status s).
Proof.
  rewrite main_unfold. cbv zeta. split.
  - intros status s H.
    destruct (for_each _ _ _) as [u s2 | e s2]; [|discriminate].
    injection H as <- <-. destruct (errors s2); split; intros H;
      congruence.
  - intros Hget.
    edestruct (total_for_each (filenames_of env args)
      (for_filename env (tempfile_mkdtemp env))) as (u & s2 & H2).
    { intros f. apply for_filename_total. exact Hget. }
    rewrite H2. eauto.
Qed.

Lemma exit_status_iff_errors_witness :
  exists status s,
    main Decreasing.env Sample.args initial_state = Returned status s /\
    (status <> 0%Z <-> errors s <> []).
Proof.
  destruct (exit_status_iff_errors Decreasing.env Sample.args initial_state)
    as [Hiff Hret].
  destruct Hret as (status & s & Hmain).
  - intros url. vm_compute. discriminate.
  - exists status, s. split; [exact Hmain | exact (Hiff status s Hmain)].
Defined.

(** ** The bug tracker *)

Lemma recorded_bind {A B} (c : M A) (k : A -> M B) s a s1 :
  c s = Returned a s1 ->
  grows any_diagnostic (fun _ => True) s s1 ->
  steady any_diagnostic (fun _ => True) (k a) ->
  recorded (bind c k) s = recorded c s ++ recorded (k a) s1.
Proof.
  intros Hc (_ & _ & es1 & _ & He1 & _) Hk.
  destruct (Hk s1) as (_ & _ & es2 & _ & He2 & _).
  unfold recorded, bind. rewrite Hc. cbn [final_state].
  rewrite He2, (drop_app_length (errors s1)), He1, <- app_assoc,
    !drop_app_length.
  reflexivity.
Qed.

Lemma after_launchpad_steady env workdir filename :
  steady any_diagnostic (fun _ => True)
    (match send_announcements_to (yaml_load env filename) with
     | None => errors_append (NoAnnouncements filename)
     | Some announce_to =>
         if has_space announce_to
         then errors_append (SpaceInAnnouncements announce_to filename)
         else ret tt
     end ;;
     modify (set_prev_version None) ;;
     modify (set_prev_projects ∅) ;;
     for_each (releases (yaml_load env filename)) (for_release env workdir)).
Proof.
  repeat first
    [ apply for_release_steady; intros; exact I
    | steady_step
    | progress intros
    | match goal with
      | |- steady _ _ (if ?b then _ else _) => destruct b
      | |- steady _ _ (match ?x with _ => _ end) => destruct x
      end
    | exact I ].
Qed.

(** A 4xx answer is recorded as an error. *)
Lemma launchpad_4xx_recorded env workdir filename lp_name status_code s :
  os_path_isfile env filename = true ->
  launchpad (yaml_load env filename) = Some lp_name ->
  requests_get env ("https://api.launchpad.net/1.0/" +:+ lp_name)
    = Response status_code ->
  (status_code / 100)%Z = 4%Z ->
  LaunchpadMissing lp_name ∈ recorded (for_filename env workdir filename) s.
Proof.
  intros Hfile Hlp Hget Hcode.
  unfold for_filename. rewrite Hfile, Hlp. cbn [negb].
  set (s1 := set_errors (errors s ++ [LaunchpadMissing lp_name])
               (set_trace
                  (trace s ++
                   [Get ("https://api.launchpad.net/1.0/" +:+ lp_name)]) s)).
  assert (Hc : (status_code <-
                  get env ("https://api.launchpad.net/1.0/" +:+ lp_name) ;;
                if (status_code / 100 =? 4)%Z
                then errors_append (LaunchpadMissing lp_name)
                else ret tt) s = Returned tt s1).
  { run. rewrite Hget. run. rewrite Hcode. reflexivity. }
  rewrite (recorded_bind _ _ s tt s1 Hc).
  - unfold recorded at 1. rewrite Hc. subst s1. run.
    rewrite drop_app_length. apply elem_of_app. left.
    apply list_elem_of_singleton. reflexivity.
  - repeat split. exists [LaunchpadMissing lp_name],
      [Get ("https://api.launchpad.net/1.0/" +:+ lp_name)].
    repeat split; repeat constructor.
  - apply after_launchpad_steady.
Qed.

(** C8. A 4xx answer is an error ([launchpad_4xx_recorded]); a
    connection failure is meant to be a warning that lets the run go
    on. Nothing catches what [requests.get] raises: the exception
    leaves [main] before any release is looked at, nothing is recorded,
    and the process ends with the status of an uncaught exception. *)
Theorem connection_failure_leaves_main :
  let o := main Unreachable.env Sample.args initial_state in
  o = Raised (RequestException Unreachable.url) (final_state o) /\
  errors (final_state o) = [] /\
  trace (final_state o) = [Mkdtemp Sample.workdir; Get Unreachable.url] /\
  fst (process Unreachable.env Sample.args) = 1%Z.
Proof. repeat split; vm_compute; reflexivity. Qed.

(** ** A commit that does not exist *)

(** C6 as stated fails: one release, one project, a well-formed hash
    the repository does not have; the version is tagged already, on
    another commit, and the run records two errors. *)
Lemma missing_commit_two_errors :
  hex40 Sample.sha_missing = true /\
  errors (final_state (main Retagged.env Sample.args initial_state)) =
    [NoCommit Sample.sha_missing Sample.repository;
     WrongCommit "0.8.0" Sample.repository Sample.sha_a Sample.sha_missing].
Proof. split; vm_compute; reflexivity. Qed.

(** C6, amended. A deliverable that names a launchpad project the bug
    tracker knows and an announcement address without a space, with
    exactly one release, of a version [validate_version] accepts and no
    tag bears yet, whose single project has a well-formed hash the
    repository does not have: the run records exactly one error, the
    "No commit" one, and returns 1. There is no list of warnings. *)
Theorem missing_commit_single_error env args filename lp_name status_code
    announce_to release project s0 :
  filenames_of env args = [filename] ->
  os_path_isfile env filename = true ->
  launchpad (yaml_load env filename) = Some lp_name ->
  requests_get env ("https://api.launchpad.net/1.0/" +:+ lp_name)
    = Response status_code ->
  (status_code / 100)%Z <> 4%Z ->
  send_announcements_to (yaml_load env filename) = Some announce_to ->
  has_space announce_to = false ->
  releases (yaml_load env filename) = [release] ->
  projects release = [project] ->
  versionutils_validate_version env (version release) = [] ->
  hex40 (hash project) = true ->
  gitutils_commit_exists env (repo project) (hash project) = false ->
  gitutils_commit_exists env (repo project) (version release) = false ->
  exists s,
    main env args s0 = Returned 1%Z s /\
    errors s = [NoCommit (hash project) (repo project)].
Proof.
  intros Hfiles Hfile Hlp Hget Hcode Hto Hspace Hrels Hprojs Hversion Hhex
    Hsha Htag.
  apply hex40_is_a_hash in Hhex. apply Z.eqb_neq in Hcode.
  rewrite main_unfold. cbv zeta. rewrite Hfiles. cbn [for_each].
  unfold for_filename. rewrite Hfile, Hlp, Hto, Hspace, Hrels. cbn [negb].
  run. rewrite Hget. run. rewrite Hcode. run.
  cbn [for_each]. unfold for_release. rewrite Hversion, Hprojs.
  cbn [for_each]. unfold for_project. rewrite Hhex. run.
  rewrite Hsha. run. rewrite Htag. run.
  eexists. split; reflexivity.
Qed.

Lemma missing_commit_single_error_witness :
  exists s,
    main Fresh.env Sample.args initial_state = Returned 1%Z s /\
    errors s = [NoCommit Sample.sha_missing Sample.repository].
Proof.
  apply (missing_commit_single_error Fresh.env Sample.args Sample.filename
           "oslo.config" 200%Z "openstack-dev@lists.openstack.org"
           Fresh.release (Sample.project Sample.sha_missing) initial_state).
  - vm_compute; reflexivity.
  - vm_compute; reflexivity.
  - vm_compute; reflexivity.
  - vm_compute; reflexivity.
  - vm_compute; discriminate.
  - vm_compute; reflexivity.
  - vm_compute; reflexivity.
  - vm_compute; reflexivity.
  - vm_compute; reflexivity.
  - vm_compute; reflexivity.
  - vm_compute; reflexivity.
  - vm_compute; reflexivity.
  - vm_compute; reflexivity.
Defined.

(** ** The working directory *)

(** However [main] ends, one exit function has been registered on top
    of those present, the working directory has been created, and no
    removal has been attempted yet. *)
Lemma main_final_state env args s0 :
  let workdir := tempfile_mkdtemp env in
  let s2 := final_state (main env args s0) in
  exitfuncs s2 = cleanup_workdir (cleanup args) workdir :: exitfuncs s0 /\
  tmpdirs s2 = tmpdirs s0 ∪ {[workdir]} /\
  exists tr,
    trace s2 = trace s0 ++ Mkdtemp workdir :: tr /\ Forall not_rmtree tr.
Proof.
  rewrite main_unfold. cbv zeta.
  set (s1 := set_exitfuncs _ _).
  pose proof (steady_for_each any_diagnostic not_rmtree
    (filenames_of env args) (for_filename env (tempfile_mkdtemp env))
    (for_filename_steady env (tempfile_mkdtemp env)) s1)
    as (Hx & Hd & es & tr & _ & Ht & _ & Htr).
  assert (Hfinal :
    final_state
      match for_each (filenames_of env args)
              (for_filename env (tempfile_mkdtemp env)) s1 with
      | Returned _ s2 =>
          Returned (match errors s2 with [] => 0 | _ => 1 end)%Z s2
      | Raised e s2 => Raised e s2
      end =
    final_state
      (for_each (filenames_of env args)
         (for_filename env (tempfile_mkdtemp env)) s1)).
  { destruct (for_each _ _ s1); reflexivity. }
  rewrite Hfinal, Hx, Hd, Ht. subst s1. cbn.
  repeat split. exists tr. rewrite <- app_assoc. auto.
Qed.

(** C9 as stated fails: cleanup was asked for, the removal fails at
    exit, the failure is swallowed and the directory stays. *)
Lemma workdir_left_behind :
  cleanup Sample.args = true /\ ~ workdir_removed Stuck.env Sample.args.
Proof.
  split; [reflexivity |]. intros H. apply H.
  apply (bool_decide_unpack _). vm_compute. exact I.
Qed.

(** C9, amended. When cleanup was asked for, the removal of the working
    directory is attempted at process exit, whether [main] returned or
    an exception left it; the directory is gone if the removal
    succeeds and stays if it fails, silently. When the caller opted
    out, no removal is attempted and the directory stays. *)
Theorem cleanup_at_exit env args :
  let workdir := tempfile_mkdtemp env in
  let final := snd (process env args) in
  (cleanup args = true ->
   (Rmtree workdir ∈ trace final) /\
   (shutil_rmtree env workdir = true -> workdir ∉ tmpdirs final) /\
   (shutil_rmtree env workdir = false -> workdir ∈ tmpdirs final)) /\
  (cleanup args = false ->
   (Rmtree workdir ∉ trace final) /\ (workdir ∈ tmpdirs final)).
Proof.
  cbv zeta.
  assert (Hfinal : snd (process env args) =
                   run_exitfuncs env
                     (final_state (main env args initial_state))).
  { unfold process. destruct (main env args initial_state); reflexivity. }
  rewrite Hfinal.
  destruct (main_final_state env args initial_state)
    as (Hx & Hd & tr & Ht & Htr).
  set (s2 := final_state (main env args initial_state)) in *.
  unfold run_exitfuncs. rewrite Hx. cbn [exitfuncs initial_state fold_left].
  unfold run_exitfunc. split; intros Hc; rewrite Hc.
  - destruct (shutil_rmtree env (tempfile_mkdtemp env));
      cbn [trace tmpdirs set_trace set_tmpdirs]; rewrite ?Hd;
      cbn [tmpdirs initial_state].
    + split; [|split].
      * apply elem_of_app. right. apply list_elem_of_singleton. reflexivity.
      * intros _ [_ Hn]%elem_of_difference. apply Hn.
        apply elem_of_singleton. reflexivity.
      * discriminate.
    + split; [|split].
      * apply elem_of_app. right. apply list_elem_of_singleton. reflexivity.
      * discriminate.
      * intros _. apply elem_of_union. right. apply elem_of_singleton.
        reflexivity.
  - rewrite Hd, Ht. cbn [tmpdirs trace initial_state]. split.
    + intros Hin. rewrite app_nil_l in Hin.
      apply elem_of_cons in Hin as [Heq | Hin]; [discriminate |].
      rewrite Forall_forall in Htr. exact (Htr _ Hin).
    + apply elem_of_union. right. apply elem_of_singleton. reflexivity.
Qed.

Lemma cleanup_at_exit_witness :
  (Rmtree Sample.workdir ∈ trace (snd (process Tagged.env Sample.args))) /\
  (Sample.workdir ∉ tmpdirs (snd (process Tagged.env Sample.args))).
Proof.
  destruct (cleanup_at_exit Tagged.env Sample.args) as [Hyes _].
  destruct Hyes as (Hrm & Hgone & _).
  - reflexivity.
  - split; [exact Hrm |]. apply Hgone. reflexivity.
Defined.

(** ** Previous-release tracking *)

(** Within one deliverable the variables do carry from a release to the
    next: the ancestry test of the second release is made against the
    version the first one left. *)
Example previous_release_carried :
  prev_version Lineage.after_first = Some "1.0.0" /\
  performed
    (for_project Lineage.env Sample.workdir Lineage.second
       (Sample.project Sample.sha_c)) Lineage.after_first =
    [CommitExists Sample.repository Sample.sha_c;
     CommitExists Sample.repository "1.1.0";
     CloneRepo Sample.workdir Sample.repository;
     CheckAncestry Sample.workdir Sample.repository "1.0.0" Sample.sha_c] /\
  performed
    (for_project Lineage.env Sample.workdir Lineage.second
       (Sample.project Sample.sha_c)) initial_state =
    [CommitExists Sample.repository Sample.sha_c;
     CommitExists Sample.repository "1.1.0";
     CloneRepo Sample.workdir Sample.repository].
Proof. repeat split; vm_compute; reflexivity. Qed.


(** * Further properties of the program *)

(** ** One project, in closed form *)

Lemma upd_nil s : upd [] [] (prev_version s) (prev_projects s) s = s.
Proof. destruct s. unfold upd. cbn. rewrite !app_nil_r. reflexivity. Qed.

Lemma upd_upd es1 tr1 o1 p1 es2 tr2 o2 p2 s :
  upd es2 tr2 o2 p2 (upd es1 tr1 o1 p1 s) =
  upd (es1 ++ es2) (tr1 ++ tr2) o2 p2 s.
Proof. unfold upd. cbn. rewrite !app_assoc. reflexivity. Qed.

Ltac close_upd :=
  unfold upd, set_errors, set_trace, set_prev_version, set_prev_projects;
  cbn; rewrite <- ?app_assoc, ?app_nil_r; reflexivity.

Lemma for_project_effect env workdir release project s :
  for_project env workdir release project s =
  Returned tt
    (upd
       (project_diagnostics env workdir release project (prev_version s)
          (prev_projects s))
       (project_calls env workdir release project (prev_version s)
          (prev_projects s))
       (prev_version s) (prev_projects s) s).
Proof.
  unfold for_project, project_diagnostics, project_calls, has_previous.
  destruct s as [es old seen fs ds tr]. cbn [prev_version prev_projects].
  destruct (is_a_hash (hash project)); cbn [negb]; run; [|close_upd].
  destruct (gitutils_commit_exists env (repo project) (hash project));
    destruct (gitutils_commit_exists env (repo project) (version release));
    run.
  1, 3: destruct (String.eqb _ (hash project)); run; close_upd.
  all: destruct old as [[|c v]|]; run; try close_upd.
  all: destruct (bool_decide (repo project ∈ seen)); run; try close_upd.
  all: destruct (gitutils_check_ancestry env workdir (repo project)
                   (String c v) (hash project)); run; close_upd.
Qed.

Lemma recorded_upd {A} (c : M A) s r es tr old seen :
  c s = finish r (upd es tr old seen s) ->
  recorded c s = es /\ performed c s = tr.
Proof.
  intros H. unfold recorded, performed. rewrite H.
  destruct r; cbn; rewrite !drop_app_length; auto.
Qed.

Lemma for_project_recorded env workdir release project s :
  recorded (for_project env workdir release project) s =
    project_diagnostics env workdir release project (prev_version s)
      (prev_projects s) /\
  performed (for_project env workdir release project) s =
    project_calls env workdir release project (prev_version s)
      (prev_projects s).
Proof.
  apply (recorded_upd _ s (inl tt) _ _ (prev_version s) (prev_projects s)).
  apply for_project_effect.
Qed.

(** ** Composition rules for [uniform] *)

Section Uniform.

Variables (P : diagnostic -> Prop) (Q : event -> Prop).

Lemma uniform_ret {A} (a : A) : uniform P Q (ret a).
Proof.
  intros old seen. exists (inl a), [], [], old, seen.
  repeat split; auto. intros s <- <-. cbn. rewrite upd_nil. reflexivity.
Qed.

Lemma uniform_raise {A} e : uniform P Q (@raise A e).
Proof.
  intros old seen. exists (inr e), [], [], old, seen.
  repeat split; auto. intros s <- <-. cbn. rewrite upd_nil. reflexivity.
Qed.

Lemma uniform_bind {A B} (c : M A) (k : A -> M B) :
  uniform P Q c -> (forall a, uniform P Q (k a)) -> uniform P Q (bind c k).
Proof.
  intros Hc Hk old seen.
  destruct (Hc old seen) as (r1 & es1 & tr1 & o1 & p1 & HP1 & HQ1 & H1).
  destruct r1 as [a | e].
  - destruct (Hk a o1 p1) as (r2 & es2 & tr2 & o2 & p2 & HP2 & HQ2 & H2).
    exists r2, (es1 ++ es2), (tr1 ++ tr2), o2, p2.
    split; [apply Forall_app; auto |]. split; [apply Forall_app; auto |].
    intros s Ho Hp. unfold bind. rewrite (H1 s Ho Hp). cbn [finish].
    rewrite H2 by reflexivity. rewrite upd_upd. reflexivity.
  - exists (inr e), es1, tr1, o1, p1. repeat split; auto.
    intros s Ho Hp. unfold bind. rewrite (H1 s Ho Hp). reflexivity.
Qed.

Lemma uniform_errors_append d : P d -> uniform P Q (errors_append d).
Proof.
  intros Hd old seen. exists (inl tt), [d], [], old, seen.
  repeat split; auto. intros s <- <-. destruct s. close_upd.
Qed.

Lemma uniform_call ev : Q ev -> uniform P Q (call ev).
Proof.
  intros Hev old seen. exists (inl tt), [], [ev], old, seen.
  repeat split; auto. intros s <- <-. destruct s. close_upd.
Qed.

Lemma uniform_set_prev_version v : uniform P Q (modify (set_prev_version v)).
Proof.
  intros old seen. exists (inl tt), [], [], v, seen.
  repeat split; auto. intros s _ <-. destruct s. unfold modify. close_upd.
Qed.

Lemma uniform_set_prev_projects ps :
  uniform P Q (modify (set_prev_projects ps)).
Proof.
  intros old seen. exists (inl tt), [], [], old, ps.
  repeat split; auto. intros s <- _. destruct s. unfold modify. close_upd.
Qed.

Lemma uniform_for_each {A} (l : list A) (body : A -> M unit) :
  (forall x, uniform P Q (body x)) -> uniform P Q (for_each l body).
Proof.
  intros Hbody. induction l as [|x l IH]; cbn [for_each].
  - apply uniform_ret.
  - apply uniform_bind; auto.
Qed.

End Uniform.

Lemma project_diagnostics_origin env workdir release project old seen :
  Forall (fun d => origin_of d = FromProject)
    (project_diagnostics env workdir release project old seen).
Proof.
  unfold project_diagnostics.
  repeat first
    [ apply Forall_app; split
    | apply Forall_nil_2
    | apply Forall_cons; split; [reflexivity |]
    | match goal with
      | |- Forall _ (if ?b then _ else _) => destruct b
      | |- Forall _ (match ?x with _ => _ end) => destruct x
      | |- Forall _ (let _ := _ in _) => cbv zeta
      end ].
Qed.

Lemma project_calls_lookup env workdir release project old seen :
  Forall (fun ev => is_lookup ev = true)
    (project_calls env workdir release project old seen).
Proof.
  unfold project_calls.
  repeat first
    [ apply Forall_app; split
    | apply Forall_nil_2
    | apply Forall_cons; split; [reflexivity |]
    | match goal with
      | |- Forall _ (if ?b then _ else _) => destruct b
      | |- Forall _ (match ?x with _ => _ end) => destruct x
      end ].
Qed.

Lemma for_project_uniform env workdir release project :
  uniform (fun d => origin_of d = FromProject)
    (fun ev => is_lookup ev = true)
    (for_project env workdir release project).
Proof.
  intros old seen.
  exists (inl tt), (project_diagnostics env workdir release project old seen),
    (project_calls env workdir release project old seen), old, seen.
  split; [apply project_diagnostics_origin |].
  split; [apply project_calls_lookup |].
  intros s <- <-. apply for_project_effect.
Qed.

Lemma uniform_weaken (P P' : diagnostic -> Prop) (Q Q' : event -> Prop)
    {A} (c : M A) :
  (forall d, P d -> P' d) -> (forall ev, Q ev -> Q' ev) ->
  uniform P Q c -> uniform P' Q' c.
Proof.
  intros HP HQ Hc old seen.
  destruct (Hc old seen) as (r & es & tr & o & p & HPs & HQs & H).
  exists r, es, tr, o, p. repeat split; auto.
  - eapply Forall_impl; eauto.
  - eapply Forall_impl; eauto.
Qed.

Lemma for_release_uniform env workdir release :
  uniform from_release (fun ev => is_lookup ev = true)
    (for_release env workdir release).
Proof.
  unfold for_release.
  apply uniform_bind.
  { apply uniform_for_each. intros e. apply uniform_errors_append.
    left. reflexivity. }
  intros _. apply uniform_bind.
  { apply uniform_for_each. intros p.
    apply (uniform_weaken (fun d => origin_of d = FromProject) _
             (fun ev => is_lookup ev = true) _).
    - intros d Hd. right. exact Hd.
    - auto.
    - apply for_project_uniform. }
  intros _. apply uniform_bind; [apply uniform_set_prev_version |].
  intros _. apply uniform_set_prev_projects.
Qed.

(** The release loop after the reset: the same result and the same
    additions from every state. *)
Lemma releases_after_reset env workdir (rs : list Release) :
  exists es tr old' seen',
    Forall from_release es /\ Forall (fun ev => is_lookup ev = true) tr /\
    forall s,
      (modify (set_prev_version None) ;;
       modify (set_prev_projects ∅) ;;
       for_each rs (for_release env workdir))%run s =
      Returned tt (upd es tr old' seen' s).
Proof.
  destruct (uniform_for_each from_release (fun ev => is_lookup ev = true)
              rs (for_release env workdir)
              (for_release_uniform env workdir) None ∅)
    as (r & es & tr & o & p & HP & HQ & H).
  assert (Hr : r = inl tt).
  { destruct (total_for_each rs (for_release env workdir)
                (for_release_total env workdir) initial_state)
      as ([] & s' & Hs').
    rewrite (H initial_state eq_refl eq_refl) in Hs'.
    destruct r as [[]|e]; [reflexivity | discriminate]. }
  subst r. exists es, tr, o, p. repeat split; auto.
  intros s. unfold bind, modify.
  rewrite H by reflexivity. reflexivity.
Qed.

(** ** One file, in closed form *)

Lemma for_filename_deleted env workdir filename s :
  os_path_isfile env filename = false ->
  for_filename env workdir filename s = Returned tt s.
Proof. intros H. unfold for_filename. rewrite H. reflexivity. Qed.

Lemma for_filename_raises env workdir filename lp_name s :
  os_path_isfile env filename = true ->
  launchpad (yaml_load env filename) = Some lp_name ->
  requests_get env ("https://api.launchpad.net/1.0/" +:+ lp_name)
    = ConnectionError ->
  for_filename env workdir filename s =
  Raised (RequestException ("https://api.launchpad.net/1.0/" +:+ lp_name))
    (upd [] [Get ("https://api.launchpad.net/1.0/" +:+ lp_name)]
       (prev_version s) (prev_projects s) s).
Proof.
  intros Hfile Hlp Hget. unfold for_filename. rewrite Hfile, Hlp.
  cbn [negb]. unfold bind at 1. unfold bind at 1. unfold get. run.
  rewrite Hget. run. destruct s. close_upd.
Qed.

Lemma for_filename_checked env workdir filename :
  os_path_isfile env filename = true ->
  ~ request_raises env filename ->
  exists es tr old' seen',
    Forall from_release es /\ Forall (fun ev => is_lookup ev = true) tr /\
    forall s,
      for_filename env workdir filename s =
      Returned tt
        (upd
           (launchpad_diagnostics env filename ++
            announcements_diagnostics env filename ++ es)
           (launchpad_calls env filename ++ tr) old' seen' s).
Proof.
  intros Hfile Hok.
  destruct (releases_after_reset env workdir
              (releases (yaml_load env filename)))
    as (es & tr & o & p & HP & HQ & Htail).
  exists es, tr, o, p. repeat split; auto. intros s.
  unfold for_filename, launchpad_diagnostics, launchpad_calls,
    announcements_diagnostics, request_raises in *.
  rewrite Hfile. cbn [negb].
  set (tail := (modify (set_prev_version None) ;; _)%run) in *.
  unfold get.
  destruct (launchpad (yaml_load env filename)) as [lp_name|];
    [destruct (requests_get env ("https://api.launchpad.net/1.0/" +:+ lp_name))
       as [status_code|] eqn:Hget;
     [destruct (status_code / 100 =? 4)%Z eqn:Hcode |
      exfalso; apply Hok; exists lp_name; split; [reflexivity | exact Hget]]
    |];
    (destruct (send_announcements_to (yaml_load env filename))
       as [announce_to|];
     [destruct (has_space announce_to)|]);
    run; rewrite ?Hget; run; rewrite ?Hcode; run; rewrite Htail; f_equal;
    destruct s; close_upd.
Qed.

(** ** The hash format test *)

(** X1. [is_a_hash] accepts a string exactly when it is 40 hexadecimal
    characters of either case, alone or followed by one newline. *)
Theorem is_a_hash_accepted_strings (h : string) :
  is_a_hash h = true <->
  exists body, hex40 body = true /\ (h = body \/ h = body +:+ newline).
Proof.
  rewrite is_a_hash_accepts. split.
  - intros [H | (body & H & ->)]; [exists h | exists body]; auto.
  - intros (body & H & [-> | ->]); [left | right]; eauto.
Qed.

Lemma in_class_lower (c : ascii) :
  Re.in_class true hash_ranges (Re.lower c) =
  Re.in_class true hash_ranges c.
Proof.
  destruct c as [[] [] [] [] [] [] [] []]; vm_compute; reflexivity.
Qed.

Lemma newline_lower (c : ascii) :
  Ascii.eqb (Re.lower c) "010" = Ascii.eqb c "010".
Proof.
  destruct c as [[] [] [] [] [] [] [] []]; vm_compute; reflexivity.
Qed.

Lemma repeat_in_lower (n : nat) (s : string) :
  Re.repeat_in true hash_ranges n (lower_string s) =
  option_map lower_string (Re.repeat_in true hash_ranges n s).
Proof.
  revert s. induction n as [|n IH]; intros s; [reflexivity |].
  destruct s as [|c s]; [reflexivity |].
  cbn [Re.repeat_in lower_string]. rewrite in_class_lower.
  destruct (Re.in_class true hash_ranges c); [apply IH | reflexivity].
Qed.

Lemma at_end_lower (s : string) :
  Re.at_end (lower_string s) = Re.at_end s.
Proof.
  destruct s as [|c [|c' s]]; try reflexivity.
  cbn [Re.at_end lower_string]. apply newline_lower.
Qed.

(** X2. The format test does not tell capitals from small letters: a
    string and the string with its capitals lowered are accepted or
    rejected together. *)
Theorem is_a_hash_ignores_case (h : string) :
  is_a_hash (lower_string h) = is_a_hash h.
Proof.
  rewrite !is_a_hash_unfold, repeat_in_lower.
  destruct (Re.repeat_in true hash_ranges 40 h) as [rest|]; cbn [option_map].
  - apply at_end_lower.
  - reflexivity.
Qed.

(** ** One project *)

Ltac mem :=
  repeat match goal with
    | H : _ ∈ [] |- _ => inversion H
    | H : _ ∈ _ ++ _ |- _ => apply elem_of_app in H as [H | H]
    | H : _ ∈ _ :: _ |- _ => apply elem_of_cons in H as [H | H]
    | H : exists _, _ |- _ => destruct H as [? H]
    | H : _ /\ _ |- _ => destruct H
    end.

Ltac by_cases_on_project env workdir release project s :=
  rewrite ?(proj1 (for_project_recorded env workdir release project s)),
    ?(proj2 (for_project_recorded env workdir release project s));
  unfold project_diagnostics, project_calls, has_previous;
  destruct (is_a_hash (hash project));
  destruct (gitutils_commit_exists env (repo project) (hash project));
  destruct (gitutils_commit_exists env (repo project) (version release));
  cbv zeta;
  try destruct (String.eqb_spec
                  (gitutils_sha_for_tag env workdir (repo project)
                     (version release)) (hash project));
  try (destruct (prev_version s) as [[|prev_c prev_v]|];
       try destruct (bool_decide_reflect (repo project ∈ prev_projects s));
       try destruct (gitutils_check_ancestry env workdir (repo project)
                       (String prev_c prev_v) (hash project))).

(** X3. "No commit" is recorded for a project exactly when its hash
    passes the format test and the server does not confirm it,
    whatever the state of the tag and of the previous release. *)
Theorem no_commit_iff env workdir release project s :
  NoCommit (hash project) (repo project)
    ∈ recorded (for_project env workdir release project) s <->
  is_a_hash (hash project) = true /\
  gitutils_commit_exists env (repo project) (hash project) = false.
Proof.
  by_cases_on_project env workdir release project s;
    (split; [intros H; mem; try discriminate; auto
            | intros [H1 H2]; try discriminate;
              apply elem_of_app; left; apply list_elem_of_singleton;
              reflexivity]).
Qed.

(** X4. The ancestry test is made for a project exactly when its hash
    passes the format test, the version is not tagged yet, the previous
    release had a non-empty version, and that release named the
    repository; it is then made against that version. *)
Theorem ancestry_tested_iff env workdir release project s old :
  CheckAncestry workdir (repo project) old (hash project)
    ∈ performed (for_project env workdir release project) s <->
  is_a_hash (hash project) = true /\
  gitutils_commit_exists env (repo project) (version release) = false /\
  old <> EmptyString /\
  prev_version s = Some old /\
  repo project ∈ prev_projects s.
Proof.
  by_cases_on_project env workdir release project s;
    (split;
     [ intros H; mem; try discriminate;
       try (injection H as ->; repeat split; auto; discriminate)
     | intros (H1 & H2 & H3 & H4 & H5); try discriminate; try congruence;
       try contradiction;
       injection H4 as <-; apply elem_of_app; right;
       apply list_elem_of_singleton; reflexivity ]).
Qed.

(** X5. The tag test and the ancestry test exclude each other: no
    project gets both a "is on commit ... instead of" and a "not a
    descendant" diagnostic. *)
Theorem tag_and_ancestry_exclusive env workdir release project s
    v r a h r' h' o :
  WrongCommit v r a h ∈ recorded (for_project env workdir release project) s ->
  NotADescendant r' h' o
    ∉ recorded (for_project env workdir release project) s.
Proof.
  by_cases_on_project env workdir release project s;
    intros H1 H2; mem; first [discriminate H1 | discriminate H2].
Qed.

Lemma tag_and_ancestry_exclusive_witness :
  NotADescendant Sample.repository Sample.sha_missing "0.7.0"
    ∉ recorded
        (for_project Retagged.env Sample.workdir Retagged.release
           (Sample.project Sample.sha_missing)) initial_state.
Proof.
  apply (tag_and_ancestry_exclusive Retagged.env Sample.workdir
           Retagged.release (Sample.project Sample.sha_missing)
           initial_state "0.8.0" Sample.repository Sample.sha_a
           Sample.sha_missing).
  assert (Hes : recorded
            (for_project Retagged.env Sample.workdir Retagged.release
               (Sample.project Sample.sha_missing)) initial_state =
          [NoCommit Sample.sha_missing Sample.repository;
           WrongCommit "0.8.0" Sample.repository Sample.sha_a
             Sample.sha_missing])
    by (vm_compute; reflexivity).
  rewrite Hes. apply list_elem_of_further, list_elem_of_here.
Defined.

(** X6. A project adds at most two diagnostics to [errors]. *)
Theorem project_at_most_two env workdir release project s :
  length (recorded (for_project env workdir release project) s) <= 2.
Proof.
  by_cases_on_project env workdir release project s; cbn; lia.
Qed.

(** X7. The repository is cloned once for every project whose hash
    passes the format test, whether the commit exists or not, and never
    for the others. *)
Theorem clone_once_per_hash env workdir release project s :
  List.filter is_clone
    (performed (for_project env workdir release project) s) =
  if is_a_hash (hash project) then [CloneRepo workdir (repo project)]
  else [].
Proof.
  by_cases_on_project env workdir release project s; reflexivity.
Qed.

Lemma after_third (a b c : event) tail pre ev post :
  a :: b :: c :: tail = pre ++ ev :: post ->
  is_local_query a = false -> is_local_query b = false ->
  is_local_query c = false -> is_local_query ev = true ->
  c ∈ pre.
Proof.
  intros Heq Ha Hb Hc Hev.
  destruct pre as [|x [|y [|z pre]]]; cbn in Heq; injection Heq; intros;
    subst; try congruence.
  apply list_elem_of_further, list_elem_of_further, list_elem_of_here.
Qed.

(** X8. The queries the clone answers come after the clone: in the
    calls made for a project, a tag resolution or an ancestry test is
    preceded by the cloning of the project's repository. *)
Theorem local_queries_after_clone env workdir release project s
    pre ev post :
  performed (for_project env workdir release project) s =
    pre ++ ev :: post ->
  is_local_query ev = true ->
  CloneRepo workdir (repo project) ∈ pre.
Proof.
  rewrite (proj2 (for_project_recorded env workdir release project s)).
  unfold project_calls. destruct (is_a_hash (hash project)).
  - intros Heq Hev. cbn [app] in Heq.
    eapply after_third; [exact Heq | reflexivity .. | exact Hev].
  - intros Heq _. destruct pre; discriminate Heq.
Qed.

Lemma local_queries_after_clone_witness :
  CloneRepo Sample.workdir Sample.repository
    ∈ [CommitExists Sample.repository Sample.sha_a;
       CommitExists Sample.repository "0.8.0";
       CloneRepo Sample.workdir Sample.repository].
Proof.
  apply (local_queries_after_clone Tagged.env Sample.workdir Tagged.release
           (Sample.project Sample.sha_a) initial_state _
           (ShaForTag Sample.workdir Sample.repository "0.8.0") []).
  - vm_compute; reflexivity.
  - reflexivity.
Defined.

(** ** One file *)

Lemma recorded_unchanged {A} (c : M A) (a : A) s :
  c s = Returned a s -> recorded c s = [] /\ performed c s = [].
Proof.
  intros H. unfold recorded, performed. rewrite H. cbn.
  rewrite !drop_all. auto.
Qed.

Lemma from_release_origin es d :
  Forall from_release es -> d ∈ es ->
  origin_of d = FromVersion \/ origin_of d = FromProject.
Proof. intros Hes Hd. rewrite Forall_forall in Hes. exact (Hes d Hd). Qed.

Lemma hundreds (status_code : Z) :
  (status_code / 100 =? 4)%Z = true <-> (400 <= status_code < 500)%Z.
Proof.
  rewrite Z.eqb_eq. split.
  - intros H.
    pose proof (Z.mul_div_le status_code 100 eq_refl).
    pose proof (Z.mul_succ_div_gt status_code 100 eq_refl). lia.
  - intros H. symmetry.
    apply (Z.div_unique status_code 100 4 (status_code - 400)); lia.
Qed.

Lemma not_raising env filename lp_name status_code :
  launchpad (yaml_load env filename) = Some lp_name ->
  requests_get env ("https://api.launchpad.net/1.0/" +:+ lp_name)
    = Response status_code ->
  ~ request_raises env filename.
Proof. intros Hlp Hget (lp & Hlp' & Hget'). congruence. Qed.

(** X9. For a file that names a launchpad project, "does not exist" is
    recorded exactly when the status of the answer lies between 400 and
    499; any other answer, 5xx included, counts as found. *)
Theorem launchpad_missing_iff env workdir filename lp_name status_code s :
  os_path_isfile env filename = true ->
  launchpad (yaml_load env filename) = Some lp_name ->
  requests_get env ("https://api.launchpad.net/1.0/" +:+ lp_name)
    = Response status_code ->
  LaunchpadMissing lp_name ∈ recorded (for_filename env workdir filename) s
  <-> (400 <= status_code < 500)%Z.
Proof.
  intros Hfile Hlp Hget.
  destruct (for_filename_checked env workdir filename Hfile
              (not_raising env filename lp_name status_code Hlp Hget))
    as (es & tr & o & p & Hes & _ & H).
  destruct (recorded_upd _ s (inl tt) _ _ _ _ (H s)) as [-> _].
  rewrite <- hundreds.
  unfold launchpad_diagnostics, announcements_diagnostics.
  rewrite Hlp, Hget.
  destruct (status_code / 100 =? 4)%Z.
  - split; [reflexivity |]. intros _. apply list_elem_of_here.
  - split; [|discriminate]. intros Hin. cbn [app] in Hin.
    apply elem_of_app in Hin as [Hin | Hin].
    + destruct (send_announcements_to (yaml_load env filename))
        as [announce_to|]; [destruct (has_space announce_to) |]; mem;
        discriminate.
    + destruct (from_release_origin es _ Hes Hin); discriminate.
Qed.

Lemma launchpad_missing_iff_witness :
  LaunchpadMissing "oslo.config"
    ∈ recorded
        (for_filename
           (Sample.world (Sample.deliverable []) (Response 404) true [] [] [])
           Sample.workdir Sample.filename) initial_state.
Proof.
  apply (launchpad_missing_iff
           (Sample.world (Sample.deliverable []) (Response 404) true [] [] [])
           Sample.workdir Sample.filename "oslo.config" 404%Z initial_state).
  - vm_compute; reflexivity.
  - vm_compute; reflexivity.
  - vm_compute; reflexivity.
  - lia.
Defined.

(** X10. "No launchpad project given" is recorded for a file exactly
    when the file exists and its document has no [launchpad] key. *)
Theorem no_launchpad_iff env workdir filename s :
  NoLaunchpad filename ∈ recorded (for_filename env workdir filename) s <->
  os_path_isfile env filename = true /\
  launchpad (yaml_load env filename) = None.
Proof.
  destruct (os_path_isfile env filename) eqn:Hfile.
  2: { destruct (recorded_unchanged _ tt s
                   (for_filename_deleted env workdir filename s Hfile))
         as [-> _].
       split; [intros H; inversion H | intros [H _]; discriminate]. }
  destruct (launchpad (yaml_load env filename)) as [lp_name|] eqn:Hlp.
  - split; [|intros [_ H]; discriminate]. intros Hin. exfalso.
    destruct (requests_get env ("https://api.launchpad.net/1.0/" +:+ lp_name))
      as [status_code|] eqn:Hget.
    + destruct (for_filename_checked env workdir filename Hfile
                  (not_raising env filename lp_name status_code Hlp Hget))
        as (es & tr & o & p & Hes & _ & H).
      destruct (recorded_upd _ s (inl tt) _ _ _ _ (H s)) as [Hrec _].
      rewrite Hrec in Hin.
      unfold launchpad_diagnostics, announcements_diagnostics in Hin.
      rewrite Hlp, Hget in Hin.
      destruct (status_code / 100 =? 4)%Z;
        (destruct (send_announcements_to (yaml_load env filename))
           as [announce_to|]; [destruct (has_space announce_to) |]);
        mem; try discriminate;
        destruct (from_release_origin es _ Hes Hin); discriminate.
    + pose proof (for_filename_raises env workdir filename lp_name s
                    Hfile Hlp Hget) as H.
      destruct (recorded_upd _ s (inr _) _ _ _ _ H) as [Hrec _].
      rewrite Hrec in Hin. inversion Hin.
  - split; [auto |]. intros _.
    assert (Hok : ~ request_raises env filename).
    { intros (lp & Hlp' & _). congruence. }
    destruct (for_filename_checked env workdir filename Hfile Hok)
      as (es & tr & o & p & _ & _ & H).
    destruct (recorded_upd _ s (inl tt) _ _ _ _ (H s)) as [-> _].
    unfold launchpad_diagnostics. rewrite Hlp. apply list_elem_of_here.
Qed.

(** X11. For a file that exists and whose request does not raise:
    "No send-announcements-to" is recorded exactly when the key is
    missing, and "Space in send-announcements-to" exactly for an
    address that contains a space. *)
Theorem announcements_checked env workdir filename s :
  os_path_isfile env filename = true ->
  ~ request_raises env filename ->
  (NoAnnouncements filename ∈ recorded (for_filename env workdir filename) s
   <-> send_announcements_to (yaml_load env filename) = None) /\
  (forall announce_to,
     SpaceInAnnouncements announce_to filename
       ∈ recorded (for_filename env workdir filename) s <->
     send_announcements_to (yaml_load env filename) = Some announce_to /\
     has_space announce_to = true).
Proof.
  intros Hfile Hok.
  destruct (for_filename_checked env workdir filename Hfile Hok)
    as (es & tr & o & p & Hes & _ & H).
  destruct (recorded_upd _ s (inl tt) _ _ _ _ (H s)) as [-> _].
  assert (Hlp : forall d, d ∈ launchpad_diagnostics env filename ->
                          origin_of d = FromLaunchpad).
  { intros d. unfold launchpad_diagnostics.
    destruct (launchpad (yaml_load env filename)) as [lp_name|];
      [destruct (requests_get env _) as [status_code|];
       [destruct (status_code / 100 =? 4)%Z |] |];
      intros Hd; mem; subst; reflexivity. }
  unfold announcements_diagnostics. split; [|intros announce_to].
  all: split.
  all: try (intros Hin; apply elem_of_app in Hin as [Hin | Hin];
            [apply Hlp in Hin; discriminate |];
            apply elem_of_app in Hin as [Hin | Hin];
            [| destruct (from_release_origin es _ Hes Hin); discriminate]).
  - destruct (send_announcements_to (yaml_load env filename)) as [a|];
      [destruct (has_space a) |]; mem; try discriminate; reflexivity.
  - intros ->. apply elem_of_app. right. apply elem_of_app. left.
    apply list_elem_of_here.
  - destruct (send_announcements_to (yaml_load env filename)) as [a|];
      [destruct (has_space a) eqn:Ha |]; mem; try discriminate.
    injection Hin as ->. auto.
  - intros [-> ->]. apply elem_of_app. right. apply elem_of_app. left.
    apply list_elem_of_here.
Qed.

Lemma announcements_checked_witness :
  NoAnnouncements Sample.filename
    ∉ recorded (for_filename Tagged.env Sample.workdir Sample.filename)
        initial_state.
Proof.
  destruct (announcements_checked Tagged.env Sample.workdir Sample.filename
              initial_state) as [Hno _].
  - vm_compute; reflexivity.
  - intros (lp & _ & Hget). vm_compute in Hget. discriminate Hget.
  - intros Hin. apply Hno in Hin. vm_compute in Hin. discriminate Hin.
Defined.

Lemma filter_get_lookups tr :
  Forall (fun ev => is_lookup ev = true) tr -> List.filter is_get tr = [].
Proof.
  induction 1 as [|ev tr Hev _ IH]; [reflexivity |].
  destruct ev; try discriminate Hev; exact IH.
Qed.

(** X12. The bug tracker is asked once for a file that exists and names
    a launchpad project, about that project, and is not asked for any
    other file; this holds whether or not the request raises. *)
Theorem one_request_per_file env workdir filename s :
  List.filter is_get (performed (for_filename env workdir filename) s) =
  if os_path_isfile env filename
  then match launchpad (yaml_load env filename) with
       | Some lp_name => [Get ("https://api.launchpad.net/1.0/" +:+ lp_name)]
       | None => []
       end
  else [].
Proof.
  destruct (os_path_isfile env filename) eqn:Hfile.
  2: { destruct (recorded_unchanged _ tt s
                   (for_filename_deleted env workdir filename s Hfile))
         as [_ ->]. reflexivity. }
  assert (Hchecked : ~ request_raises env filename ->
    List.filter is_get (performed (for_filename env workdir filename) s) =
    launchpad_calls env filename).
  { intros Hok.
    destruct (for_filename_checked env workdir filename Hfile Hok)
      as (es & tr & o & p & _ & Htr & H).
    destruct (recorded_upd _ s (inl tt) _ _ _ _ (H s)) as [_ ->].
    rewrite List.filter_app, (filter_get_lookups tr Htr), app_nil_r.
    unfold launchpad_calls.
    destruct (launchpad (yaml_load env filename)); reflexivity. }
  unfold launchpad_calls in Hchecked.
  destruct (launchpad (yaml_load env filename)) as [lp_name|] eqn:Hlp.
  - destruct (requests_get env ("https://api.launchpad.net/1.0/" +:+ lp_name))
      as [status_code|] eqn:Hget.
    + apply Hchecked. intros (lp & Hlp' & Hget'). congruence.
    + pose proof (for_filename_raises env workdir filename lp_name s
                    Hfile Hlp Hget) as H.
      destruct (recorded_upd _ s (inr _) _ _ _ _ H) as [_ ->]. reflexivity.
  - apply Hchecked. intros (lp & Hlp' & _). congruence.
Qed.

(** ** The file loop *)

(** X13. Files that do not exist are passed over: the loop over a list
    of files does what the loop over its existing files does. *)
Theorem deleted_files_skipped env workdir (filenames : list string) s :
  for_each filenames (for_filename env workdir) s =
  for_each (List.filter (os_path_isfile env) filenames)
    (for_filename env workdir) s.
Proof.
  revert s. induction filenames as [|f fs IH]; intros s; [reflexivity |].
  cbn [for_each List.filter].
  destruct (os_path_isfile env f) eqn:Hfile.
  - cbn [for_each]. unfold bind.
    destruct (for_filename env workdir f s); [apply IH | reflexivity].
  - unfold bind. rewrite (for_filename_deleted env workdir f s Hfile).
    apply IH.
Qed.

(** X17. A request that raises ends the loop: the files after the one
    whose request raises change nothing. *)
Theorem later_files_unchecked env workdir before filename after s :
  os_path_isfile env filename = true ->
  request_raises env filename ->
  for_each (before ++ filename :: after) (for_filename env workdir) s =
  for_each (before ++ [filename]) (for_filename env workdir) s.
Proof.
  intros Hfile (lp_name & Hlp & Hget). revert s.
  induction before as [|f fs IH]; intros s; cbn [app for_each]; unfold bind.
  - rewrite (for_filename_raises env workdir filename lp_name s Hfile Hlp
               Hget). reflexivity.
  - destruct (for_filename env workdir f s); [apply IH | reflexivity].
Qed.

Lemma later_files_unchecked_witness :
  for_each [Sample.filename; Sample.filename]
    (for_filename Unreachable.env Sample.workdir) initial_state =
  for_each [Sample.filename]
    (for_filename Unreachable.env Sample.workdir) initial_state.
Proof.
  apply (later_files_unchecked Unreachable.env Sample.workdir []
           Sample.filename [Sample.filename] initial_state).
  - vm_compute; reflexivity.
  - exists "oslo.config". split; vm_compute; reflexivity.
Defined.

(** ** The whole run, file by file *)

Lemma for_filename_returns env workdir filename :
  (forall url, requests_get env url <> ConnectionError) ->
  exists es tr, forall s, exists old seen,
    for_filename env workdir filename s =
    Returned tt (upd es tr old seen s).
Proof.
  intros Hget. destruct (os_path_isfile env filename) eqn:Hfile.
  - destruct (for_filename_checked env workdir filename Hfile)
      as (es & tr & o & p & _ & _ & H).
    { intros (lp & _ & Hraise). exact (Hget _ Hraise). }
    eexists _, _. intros s. exists o, p. apply H.
  - exists [], []. intros s. exists (prev_version s), (prev_projects s).
    rewrite upd_nil. apply for_filename_deleted. exact Hfile.
Qed.

Lemma loop_errors env workdir (filenames : list string) :
  (forall url, requests_get env url <> ConnectionError) ->
  forall s, exists s',
    for_each filenames (for_filename env workdir) s = Returned tt s' /\
    errors s' =
      errors s ++
      concat ((fun f => recorded (for_filename env workdir f) initial_state)
                <$> filenames).
Proof.
  intros Hget. induction filenames as [|f fs IH]; intros s.
  - exists s. split; [reflexivity |]. cbn. rewrite app_nil_r. reflexivity.
  - destruct (for_filename_returns env workdir f Hget) as (es & tr & H).
    destruct (H s) as (o & p & Hs).
    destruct (H initial_state) as (o0 & p0 & H0).
    destruct (recorded_upd _ _ (inl tt) _ _ _ _ H0) as [Hrec _].
    destruct (IH (upd es tr o p s)) as (s' & Hloop & Herrors).
    exists s'. cbn [for_each]. unfold bind. rewrite Hs. split; [exact Hloop |].
    rewrite Herrors, fmap_cons, Hrec. cbn [concat errors upd].
    rewrite app_assoc. reflexivity.
Qed.

(** When no request raises, [main] returns, and the errors it ends with
    are those of its files, in order. *)
Lemma main_errors env args s0 :
  (forall url, requests_get env url <> ConnectionError) ->
  exists s,
    main env args s0 =
      Returned (match errors s with [] => 0 | _ => 1 end)%Z s /\
    errors s =
      concat ((fun f =>
                 recorded (for_filename env (tempfile_mkdtemp env) f)
                   initial_state) <$> filenames_of env args).
Proof.
  intros Hget. rewrite main_unfold. cbv zeta.
  set (s1 := set_exitfuncs _ _).
  destruct (loop_errors env (tempfile_mkdtemp env) (filenames_of env args)
              Hget s1) as (s' & Hloop & Herrors).
  exists s'. rewrite Hloop. split; [reflexivity |]. exact Herrors.
Qed.

Lemma filenames_of_input env args :
  input args <> [] -> filenames_of env args = input args.
Proof.
  unfold filenames_of. destruct (input args); [congruence | reflexivity].
Qed.

Lemma alone_errors env args s0 filename :
  (forall url, requests_get env url <> ConnectionError) ->
  exists s,
    main env (alone args filename) s0 =
      Returned (match errors s with [] => 0 | _ => 1 end)%Z s /\
    errors s =
      recorded (for_filename env (tempfile_mkdtemp env) filename)
        initial_state.
Proof.
  intros Hget.
  destruct (main_errors env (alone args filename) s0 Hget)
    as (s & Hmain & Herrors).
  exists s. split; [exact Hmain |]. rewrite Herrors. cbn.
  apply app_nil_r.
Qed.

(** X15. Errors accumulate over the files of a run: when no request
    raises and files are given, the errors [main] ends with are, in the
    order of the files, the errors of the runs that check each file
    alone. *)
Theorem errors_accumulate env args s0 :
  (forall url, requests_get env url <> ConnectionError) ->
  input args <> [] ->
  errors (final_state (main env args s0)) =
  concat ((fun f => errors (final_state (main env (alone args f) s0)))
            <$> input args).
Proof.
  intros Hget Hinput.
  destruct (main_errors env args s0 Hget) as (s & Hmain & Herrors).
  rewrite Hmain. cbn [final_state].
  rewrite Herrors, (filenames_of_input env args Hinput). f_equal.
  apply list_fmap_ext. intros _ f _.
  destruct (alone_errors env args s0 f Hget) as (sf & Hf & Hef).
  rewrite Hf. cbn [final_state]. symmetry. exact Hef.
Qed.

Lemma errors_accumulate_witness :
  errors (final_state (main Retagged.env Twice.args initial_state)) =
  errors (final_state (main Retagged.env Sample.args initial_state)) ++
  errors (final_state (main Retagged.env Sample.args initial_state)) ++ [].
Proof.
  apply (errors_accumulate Retagged.env Twice.args initial_state).
  - intros url. vm_compute. discriminate.
  - discriminate.
Defined.

Lemma loop_all_deleted env workdir (filenames : list string) s :
  (forall f, f ∈ filenames -> os_path_isfile env f = false) ->
  for_each filenames (for_filename env workdir) s = Returned tt s.
Proof.
  induction filenames as [|f fs IH]; intros Hall; [reflexivity |].
  cbn [for_each]. unfold bind.
  rewrite (for_filename_deleted env workdir f s)
    by (apply Hall, list_elem_of_here).
  apply IH. intros g Hg. apply Hall, list_elem_of_further, Hg.
Qed.

(** X14. A run with nothing to check succeeds: when none of the files
    chosen for it exists (or none is chosen), [main] returns 0 without
    an error, and makes no request to the bug tracker and no call to
    the repository functions. *)
Theorem nothing_to_check env args s0 :
  (forall f, f ∈ filenames_of env args -> os_path_isfile env f = false) ->
  exists s,
    main env args s0 = Returned 0%Z s /\
    errors s = [] /\
    Forall (fun ev => is_get ev = false /\ is_lookup ev = false)
      (performed (main env args) s0).
Proof.
  intros Hall. unfold performed. rewrite main_unfold. cbv zeta.
  rewrite (loop_all_deleted env _ _ _ Hall). cbn [errors set_exitfuncs
    set_tmpdirs set_trace set_errors final_state trace].
  eexists. split; [reflexivity |]. split; [reflexivity |].
  rewrite drop_app_length. repeat constructor.
Qed.

Lemma nothing_to_check_witness :
  exists s,
    main Tagged.env Twice.gone initial_state = Returned 0%Z s /\
    errors s = [] /\
    Forall (fun ev => is_get ev = false /\ is_lookup ev = false)
      (performed (main Tagged.env Twice.gone) initial_state).
Proof.
  apply (nothing_to_check Tagged.env Twice.gone initial_state).
  intros f Hf. apply list_elem_of_singleton in Hf. subst f.
  vm_compute. reflexivity.
Defined.

Lemma concat_nil_iff {A} (ls : list (list A)) :
  concat ls = [] <-> forall l, l ∈ ls -> l = [].
Proof.
  induction ls as [|l ls IH]; cbn [concat].
  - split; [intros _ l Hl; inversion Hl | reflexivity].
  - split.
    + intros [-> Hls]%app_eq_nil l' [-> | Hl']%elem_of_cons;
        [reflexivity | exact (proj1 IH Hls l' Hl')].
    + intros Hall. rewrite (Hall l (list_elem_of_here _ _)).
      apply IH. intros l' Hl'. apply Hall, list_elem_of_further, Hl'.
Qed.

(** X16. When no request raises and files are given, the run returns 0
    exactly when each of the runs that check one of its files alone
    returns 0. *)
Theorem succeeds_iff_each_succeeds env args s0 :
  (forall url, requests_get env url <> ConnectionError) ->
  input args <> [] ->
  (exists s, main env args s0 = Returned 0%Z s) <->
  (forall f, f ∈ input args ->
     exists s, main env (alone args f) s0 = Returned 0%Z s).
Proof.
  intros Hget Hinput.
  destruct (main_errors env args s0 Hget) as (s & Hmain & Herrors).
  rewrite (filenames_of_input env args Hinput) in Herrors.
  split.
  - intros (s' & Hzero) f Hf.
    assert (Hnone : errors s = []).
    { rewrite Hmain in Hzero. destruct (errors s); [reflexivity |].
      discriminate Hzero. }
    rewrite Herrors in Hnone.
    destruct (alone_errors env args s0 f Hget) as (sf & Hsf & Hef).
    exists sf. rewrite Hsf, Hef.
    rewrite (proj1 (concat_nil_iff _) Hnone
               (recorded (for_filename env (tempfile_mkdtemp env) f)
                  initial_state)); [reflexivity |].
    apply (list_elem_of_fmap_2
             (fun f => recorded (for_filename env (tempfile_mkdtemp env) f)
                         initial_state)). exact Hf.
  - intros Heach. exists s. rewrite Hmain.
    assert (Hnone : errors s = []).
    { rewrite Herrors. apply concat_nil_iff. intros l Hl.
      apply list_elem_of_fmap in Hl as (f & -> & Hf).
      destruct (Heach f Hf) as (s' & Hzero).
      destruct (alone_errors env args s0 f Hget) as (sf & Hsf & Hef).
      rewrite <- Hef. rewrite Hsf in Hzero.
      destruct (errors sf); [reflexivity | discriminate Hzero]. }
    rewrite Hnone. reflexivity.
Qed.

Lemma succeeds_iff_each_succeeds_witness :
  exists s, main Tagged.env Twice.args initial_state = Returned 0%Z s.
Proof.
  apply (succeeds_iff_each_succeeds Tagged.env Twice.args initial_state).
  - intros url. vm_compute. discriminate.
  - discriminate.
  - intros f Hf.
    exists (final_state (main Tagged.env (alone Twice.args f) initial_state)).
    apply elem_of_cons in Hf as [-> | Hf];
      [| apply list_elem_of_singleton in Hf; subst f];
      vm_compute; reflexivity.
Defined.

(** ** The first release *)

Lemma project_calls_no_previous env workdir release project old seen :
  old = None \/ old = Some EmptyString ->
  Forall (fun ev => is_ancestry_test ev = false)
    (project_calls env workdir release project old seen).
Proof.
  intros Hold. unfold project_calls, has_previous.
  destruct (is_a_hash (hash project)); [|constructor].
  destruct (gitutils_commit_exists env (repo project) (version release));
    destruct Hold as [-> | ->]; repeat constructor.
Qed.

Lemma projects_no_previous env workdir release (ps : list ProjectRef) s :
  no_previous s ->
  exists es tr,
    for_each ps (for_project env workdir release) s =
      Returned tt (upd es tr (prev_version s) (prev_projects s) s) /\
    Forall (fun ev => is_ancestry_test ev = false) tr.
Proof.
  revert s. induction ps as [|p ps IH]; intros s Hs.
  - exists [], []. rewrite upd_nil. split; [reflexivity | constructor].
  - cbn [for_each]. unfold bind. rewrite for_project_effect.
    match goal with
    | |- context [for_each ps _ ?s1] =>
        destruct (IH s1) as (es & tr & Hloop & Htr); [exact Hs |]
    end.
    rewrite Hloop. cbn [prev_version prev_projects upd]. rewrite upd_upd. eexists _, _. split; [reflexivity |].
    apply Forall_app. split; [|exact Htr].
    apply project_calls_no_previous. exact Hs.
Qed.

(** X18. A release reached while no previous version is recorded, as the
    first release of every file is, is never put to the ancestry test,
    whatever its projects and the repositories recorded before. *)
Theorem first_release_untested env workdir release s ev :
  no_previous s ->
  ev ∈ performed (for_release env workdir release) s ->
  is_ancestry_test ev = false.
Proof.
  intros Hs. unfold for_release. unfold performed, bind at 1.
  rewrite version_loop. cbn [final_state].
  set (s1 := set_errors _ s).
  destruct (projects_no_previous env workdir release (projects release) s1)
    as (es & tr & Hloop & Htr); [exact Hs |].
  unfold bind. rewrite Hloop. cbn. rewrite drop_app_length.
  intros Hev. rewrite Forall_forall in Htr. exact (Htr ev Hev).
Qed.

Lemma first_release_untested_witness :
  is_ancestry_test
    (CommitExists Sample.repository "1.1.0") = false.
Proof.
  apply (first_release_untested Lineage.env Sample.workdir Lineage.second
           initial_state).
  - left. reflexivity.
  - assert (Hcalls : performed
              (for_release Lineage.env Sample.workdir Lineage.second)
              initial_state =
            [CommitExists Sample.repository Sample.sha_c;
             CommitExists Sample.repository "1.1.0";
             CloneRepo Sample.workdir Sample.repository])
      by (vm_compute; reflexivity).
    rewrite Hcalls. apply list_elem_of_further, list_elem_of_here.
Defined.

(** * Releases in closed form *)









(** * Existing tags, in a repository that has the commits of its tags *)

(** C4. For a project with a well-formed hash whose version tag exists,
    in a repository that confirms the commit its tag resolves to,
    exactly one of two outcomes occurs: the tag resolves to the claimed
    hash and no diagnostic is recorded, or it resolves to another commit
    and an error reporting the actual and the claimed value is
    recorded; never both, and nothing else. *)
Theorem tag_resolves_or_reported env workdir release project s :
  is_a_hash (hash project) = true ->
  gitutils_commit_exists env (repo project) (version release) = true ->
  gitutils_commit_exists env (repo project)
    (gitutils_sha_for_tag env workdir (repo project) (version release))
    = true ->
  let actual_sha :=
    gitutils_sha_for_tag env workdir (repo project) (version release) in
  let es := recorded (for_project env workdir release project) s in
  tag_matches_or_reported env workdir release project s /\
  ~ ((actual_sha = hash project /\ es = []) /\
     (actual_sha <> hash project /\
      WrongCommit (version release) (repo project) actual_sha (hash project)
        ∈ es)).
Proof.
  intros Hhash Htag Hhas actual_sha es. split.
  - unfold tag_matches_or_reported. fold actual_sha. fold es.
    destruct (tag_matches_or_wrong_commit env workdir release project s
                Hhash Htag) as [[Heq Hes] | [Hne Hes]].
    + left. split; [exact Heq |]. subst es. rewrite Hes.
      fold actual_sha in Heq. rewrite <- Heq. subst actual_sha.
      rewrite Hhas. reflexivity.
    + right. split; [exact Hne |]. subst es. rewrite Hes.
      apply elem_of_app. right. apply list_elem_of_here.
  - intros [[Heq _] [Hne _]]. exact (Hne Heq).
Qed.

Lemma tag_resolves_or_reported_witness :
  tag_matches_or_reported Tagged.env Sample.workdir Tagged.release
    (Sample.project Sample.sha_a) initial_state.
Proof.
  apply (tag_resolves_or_reported Tagged.env Sample.workdir Tagged.release
           (Sample.project Sample.sha_a) initial_state).
  - vm_compute; reflexivity.
  - vm_compute; reflexivity.
  - vm_compute; reflexivity.
Defined.

(** * The exit status of the process *)

(** C7. The exit status is meant to be non-zero exactly when [errors]
    is non-empty at the end of the run. That holds for every run in
    which [main] reaches its end; but when a request to the bug tracker
    raises, nothing catches it: the process exits with a non-zero
    status and [errors] is empty. *)
Theorem exit_status_without_errors :
  fst (process Unreachable.env Sample.args) <> 0%Z /\
  errors (snd (process Unreachable.env Sample.args)) = [] /\
  ~ (forall env args,
       fst (process env args) <> 0%Z <-> errors (snd (process env args)) <> []).
Proof.
  assert (Hstatus : fst (process Unreachable.env Sample.args) = 1%Z)
    by (vm_compute; reflexivity).
  assert (Herrors : errors (snd (process Unreachable.env Sample.args)) = [])
    by (vm_compute; reflexivity).
  split; [rewrite Hstatus; discriminate |]. split; [exact Herrors |].
  intros Hall.
  destruct (Hall Unreachable.env Sample.args) as [Hto _].
  apply Hto; [rewrite Hstatus; discriminate | exact Herrors].
Qed.

(** * Previous-release tracking *)

